(** * LinearRegressionVisualization: a shallow embedding

    The component [LinearRegressionChart] of
    [src/components/LinearRegressionVisualization.tsx] generates a sample of
    twenty noisy points, fits a least-squares line to it, draws the sample
    and the line as an SVG scene with d3, shows a tooltip over the hovered
    point and exports the scene as a PNG file.

    The development is organised as follows.
    - [Numbers]: the JavaScript number operations the component uses, as an
      interface with three implementations: exact rationals extended with
      [NaN] and the infinities, the same with every result rounded, and
      IEEE binary64 (primitive floats).
    - [D3]: the functions of d3-array and d3-scale the component calls.
    - [Chart]: the component itself, with its React state, the SVG scene,
      the store of path objects, and the queue of pending timers. The
      fields [x], [y] of a point are [px], [py] here, the fields [m], [b] of
      a fit are [fit_m], [fit_b], and the fields [x], [y] of the tooltip
      are [tip_x], [tip_y]. Styling, the axis ticks, the radius transition
      of the circles and the zoom behaviour are left out.
    - [Spec]: the vocabulary of the specification; [Examples]: concrete
      data.
    - The properties of the component. *)

From Stdlib Require Import ZArith QArith Qround Qabs Lia Lqa List String Ascii Bool.
From Stdlib Require Import DecimalString.
From Stdlib Require Import Floats.PrimFloat Floats.SpecFloat Floats.FloatOps.
From Stdlib Require Import Numbers.Cyclic.Int63.Uint63.
From stdpp Require Import base option list gmap.
Import ListNotations.

(** ** Numbers *)

Module Numbers.

(** A JavaScript number seen as its mathematical value: a rational, [NaN],
    or an infinity. Zero carries no sign here: a division of a nonzero
    number by zero takes the sign of the dividend, as it does for [+0]. *)
Inductive xnum : Type :=
  | Fin (q : Q)
  | NaN
  | Inf (negative : bool).

Definition Qnegative (q : Q) : bool := negb (Qle_bool 0 q).
Definition Qzero (q : Q) : bool := Qeq_bool q 0.

Definition xadd (a b : xnum) : xnum :=
  match a, b with
  | NaN, _ | _, NaN => NaN
  | Fin p, Fin q => Fin (p + q)
  | Inf s, Inf t => if Bool.eqb s t then Inf s else NaN
  | Inf s, Fin _ | Fin _, Inf s => Inf s
  end.

Definition xsub (a b : xnum) : xnum :=
  match a, b with
  | NaN, _ | _, NaN => NaN
  | Fin p, Fin q => Fin (p - q)
  | Inf s, Inf t => if Bool.eqb s t then NaN else Inf s
  | Inf s, Fin _ => Inf s
  | Fin _, Inf s => Inf (negb s)
  end.

Definition xmul (a b : xnum) : xnum :=
  match a, b with
  | NaN, _ | _, NaN => NaN
  | Fin p, Fin q => Fin (p * q)
  | Inf s, Inf t => Inf (xorb s t)
  | Inf s, Fin q | Fin q, Inf s =>
      if Qzero q then NaN else Inf (xorb s (Qnegative q))
  end.

Definition xdiv (a b : xnum) : xnum :=
  match a, b with
  | NaN, _ | _, NaN => NaN
  | Fin p, Fin q =>
      if Qzero q
      then (if Qzero p then NaN else Inf (Qnegative p))
      else Fin (p / q)
  | Inf _, Inf _ => NaN
  | Inf s, Fin q => Inf (xorb s (Qnegative q))
  | Fin _, Inf _ => Fin 0
  end.

(** Two numbers denote the same value. *)
Definition xeq (a b : xnum) : Prop :=
  match a, b with
  | Fin p, Fin q => p == q
  | NaN, NaN => True
  | Inf s, Inf t => s = t
  | _, _ => False
  end.

(** The operations of a JavaScript number, and the value a number denotes. *)
Class Number (T : Type) : Type := {
  of_Q : Q -> T;
  add : T -> T -> T;
  sub : T -> T -> T;
  mul : T -> T -> T;
  div : T -> T -> T;
  value : T -> xnum
}.

(** Exact arithmetic. *)
#[export] Instance exact : Number xnum := {|
  of_Q := Fin;
  add := xadd;
  sub := xsub;
  mul := xmul;
  div := xdiv;
  value := fun a => a
|}.

(** Arithmetic in which every finite result passes through a rounding
    operator [rnd], as the result of a floating-point operation does. *)
Definition xround (rnd : Q -> Q) (a : xnum) : xnum :=
  match a with
  | Fin q => Fin (rnd q)
  | _ => a
  end.

Definition rounded (rnd : Q -> Q) : Number xnum := {|
  of_Q := fun q => Fin (rnd q);
  add := fun a b => xround rnd (xadd a b);
  sub := fun a b => xround rnd (xsub a b);
  mul := fun a b => xround rnd (xmul a b);
  div := fun a b => xround rnd (xdiv a b);
  value := fun a => a
|}.

(** IEEE 754 binary64, the numbers a JavaScript engine computes with.
    [float_of_Z] is exact on the integers below [2^53] in magnitude, which
    covers the literals, the indices and the lengths of the component. *)
Definition float_of_Z (z : Z) : float :=
  match z with
  | Z0 => PrimFloat.zero
  | Zpos _ => PrimFloat.of_uint63 (Uint63.of_Z z)
  | Zneg p => PrimFloat.opp (PrimFloat.of_uint63 (Uint63.of_Z (Zpos p)))
  end.

Definition float_value (f : float) : xnum :=
  match Prim2SF f with
  | S754_zero _ => Fin 0
  | S754_infinity s => Inf s
  | S754_nan => NaN
  | S754_finite s m e =>
      Fin (inject_Z (if s then Zneg m else Zpos m) * Qpower 2 e)%Q
  end.

#[export] Instance binary64 : Number float := {|
  of_Q := fun q => PrimFloat.div (float_of_Z (Qnum q)) (float_of_Z (Zpos (Qden q)));
  add := PrimFloat.add;
  sub := PrimFloat.sub;
  mul := PrimFloat.mul;
  div := PrimFloat.div;
  value := float_value
|}.

Section Derived.
Context {T : Type} {num : Number T}.

Definition of_Z (z : Z) : T := of_Q (inject_Z z).
Definition of_nat (n : nat) : T := of_Z (Z.of_nat n).

(** The number [undefined] converts to. *)
Definition nan : T := div (of_Z 0) (of_Z 0).

(** [ToBoolean]: false on zero and on [NaN]. *)
Definition truthy (v : T) : bool :=
  match value v with
  | Fin q => negb (Qzero q)
  | NaN => false
  | Inf _ => true
  end.

Definition isNaN (v : T) : bool :=
  match value v with
  | NaN => true
  | _ => false
  end.

(** The comparisons [a < b] and [a >= b]; both are false when an operand
    is [NaN]. *)
Definition ltb (a b : T) : bool :=
  match value a, value b with
  | NaN, _ | _, NaN => false
  | Fin p, Fin q => negb (Qle_bool q p)
  | Inf s, Inf t => s && negb t
  | Inf s, Fin _ => s
  | Fin _, Inf t => negb t
  end.

Definition geb (a b : T) : bool :=
  match value a, value b with
  | NaN, _ | _, NaN => false
  | _, _ => negb (ltb a b)
  end.

(** [Math.max(0, Math.ceil(v)) | 0]: the ceiling, clipped below at zero,
    then [ToInt32] (zero on [NaN] and the infinities, wrap-around modulo
    [2^32] into [[-2^31, 2^31)]). *)
Definition ToInt32 (z : Z) : Z := ((z + 2 ^ 31) mod 2 ^ 32 - 2 ^ 31)%Z.

Definition ceil_count (v : T) : Z :=
  match value v with
  | Fin q => ToInt32 (Z.max 0 (Qceiling q))
  | _ => 0%Z
  end.

(** [Number.prototype.toFixed(fractionDigits)], for the [fractionDigits]
    the component passes (2). A finite number of magnitude [10^21] or more
    is printed by [Number::toString], which is left symbolic. *)
Inductive Formatted : Type :=
  | Text (s : string)
  | ViaToString (negative : bool) (magnitude : Q).

Definition decimal (n : Z) : string :=
  DecimalString.NilZero.string_of_uint (N.to_uint (Z.to_N n)).

Fixpoint zeros (k : nat) : string :=
  match k with
  | O => EmptyString
  | S k' => String "0" (zeros k')
  end.

Definition toFixed (v : T) (fractionDigits : nat) : Formatted :=
  match value v with
  | NaN => Text "NaN"
  | Inf false => Text "Infinity"
  | Inf true => Text "-Infinity"
  | Fin q =>
      let s := if Qnegative q then "-"%string else EmptyString in
      let x := Qabs q in
      if Qle_bool (inject_Z (10 ^ 21)%Z) x then ViaToString (Qnegative q) x
      else
        let f := fractionDigits in
        let n := Qfloor (x * inject_Z (10 ^ Z.of_nat f) + (1 # 2))%Q in
        let m := decimal n in
        let m :=
          match f with
          | O => m
          | _ =>
              let k := String.length m in
              let m := if (k <=? f)%nat then (zeros (f + 1 - k) ++ m)%string else m in
              let k := String.length m in
              (substring 0 (k - f) m ++ "." ++ substring (k - f) f m)%string
          end in
        Text (s ++ m)
  end.

End Derived.

End Numbers.
Export Numbers.

(** ** The d3 functions the component calls *)

Module D3.
Section WithNumber.
Context {T : Type} {num : Number T}.

(** [d3.sum(values, valueof)]: adds up, from zero and from the left, the
    values that are truthy (neither zero nor [NaN]). *)
Definition sum {A : Type} (values : list A) (valueof : A -> T) : T :=
  fold_left
    (fun acc d => let v := valueof d in if truthy v then add acc v else acc)
    values (of_Z 0).

(** [d3.max(values, valueof)]: the greatest comparable value, [undefined]
    ([None]) when there is none. *)
Definition max {A : Type} (values : list A) (valueof : A -> T) : option T :=
  fold_left
    (fun cur d =>
       let v := valueof d in
       match cur with
       | Some c => if ltb c v then Some v else cur
       | None => if geb v v then Some v else None
       end)
    values None.

(** [d3.range(start, stop, step)]: [start + i * step] for [i] below
    [Math.max(0, Math.ceil((stop - start) / step)) | 0]. [None] is the
    [RangeError] of [new Array(n)] for a negative [n]. *)
Definition range (start stop step : T) : option (list T) :=
  let n := ceil_count (div (sub stop start) step) in
  if (n <? 0)%Z then None
  else Some (map (fun i => add start (mul (of_nat i) step)) (seq 0 (Z.to_nat n))).

(** [d3.scaleLinear().domain([d0, d1]).range([r0, r1])]. *)
Record Scale : Type := { d0 : T; d1 : T; r0 : T; r1 : T }.

Definition normalize (a b x : T) : T :=
  let b' := sub b a in
  if truthy b' then div (sub x a) b'
  else if isNaN b' then nan else of_Q (1 # 2).

Definition interpolateNumber (a b t : T) : T :=
  add (mul a (sub (of_Z 1) t)) (mul b t).

(** Applying a scale; a [NaN] argument gives [undefined] ([None]). *)
Definition scale (s : Scale) (x : T) : option T :=
  if isNaN x then None
  else if ltb (d1 s) (d0 s)
       then Some (interpolateNumber (r1 s) (r0 s) (normalize (d1 s) (d0 s) x))
       else Some (interpolateNumber (r0 s) (r1 s) (normalize (d0 s) (d1 s) x)).

End WithNumber.
Arguments Scale T : clear implicits.
End D3.

(** ** The component *)

Module Chart.
Import D3.

(** What a promise settles to. *)
Inductive Settled : Type :=
  | Resolved (dataUrl : string)
  | Rejected.

(** A file handed to the browser's download mechanism:
    [link.download] and [link.href]. *)
Record Download : Type := { download : string; href : string }.

Section WithNumber.
Context {T : Type} {num : Number T}.

(** [interface Point { x: number; y: number }] *)
Record Point : Type := { px : T; py : T }.

(** The object [{ m, b }] that [calculateRegression] returns. *)
Record Fit : Type := { fit_m : T; fit_b : T }.

Record TooltipState : Type := {
  visible : bool;
  tip_x : T;
  tip_y : T;
  dataX : option T;
  dataY : option T
}.

Record MouseEvent : Type := { clientX : T; clientY : T }.

(** The engine behind [Math.random]: the sequence of numbers it will
    produce and how many of them have been drawn. *)
Record Rand : Type := { stream : nat -> T; cursor : nat }.

Definition Math_random (g : Rand) : T * Rand :=
  (stream g (cursor g), {| stream := stream g; cursor := S (cursor g) |}).

(** SVG path objects live in a store; the scene and the timer callbacks
    refer to them by location. *)
Definition loc : Type := nat.

Record PathObj : Type := {
  datum : list Point;
  d_attr : option (list (T * T))
}.

(** A circle with its attributes [cx], [cy] and the point bound to it by
    the data join. Colours, stroke and the radius transition are left out. *)
Record Circle : Type := { cx : option T; cy : option T; bound : Point }.

(** The children of the [svg] element after a draw: the two axes, the
    circles and the path of the regression line. *)
Record Scene : Type := {
  xAxis : Scale T;
  yAxis : Scale T;
  circles : list Circle;
  path : loc
}.

(** A callback registered with [setTimeout], with what its closure
    captured: [path], [linePoints], [i] and the scales of [lineGenerator]. *)
Record Timer : Type := {
  due : nat;
  tm_path : loc;
  tm_linePoints : list Point;
  tm_i : nat;
  tm_xScale : Scale T;
  tm_yScale : Scale T
}.

Record State : Type := {
  (* React state *)
  points : list Point;
  slope : T;
  intercept : T;
  tooltip : TooltipState;
  (* the effect that depends on [points] has to run *)
  dirty : bool;
  (* the document: [svgRef.current], the children of the svg, the paths *)
  mounted : bool;
  scene : option Scene;
  store : gmap loc PathObj;
  (* the event loop: pending timers in registration order, time in ms *)
  timers : list Timer;
  clock : nat;
  (* the environment *)
  rand : Rand;
  downloads : list Download
}.

Definition setPoints (v : list Point) (st : State) : State :=
  {| points := v; slope := slope st; intercept := intercept st;
     tooltip := tooltip st; dirty := true; mounted := mounted st;
     scene := scene st; store := store st; timers := timers st;
     clock := clock st; rand := rand st; downloads := downloads st |}.

Definition setSlope (v : T) (st : State) : State :=
  {| points := points st; slope := v; intercept := intercept st;
     tooltip := tooltip st; dirty := dirty st; mounted := mounted st;
     scene := scene st; store := store st; timers := timers st;
     clock := clock st; rand := rand st; downloads := downloads st |}.

Definition setIntercept (v : T) (st : State) : State :=
  {| points := points st; slope := slope st; intercept := v;
     tooltip := tooltip st; dirty := dirty st; mounted := mounted st;
     scene := scene st; store := store st; timers := timers st;
     clock := clock st; rand := rand st; downloads := downloads st |}.

Definition setTooltip (v : TooltipState) (st : State) : State :=
  {| points := points st; slope := slope st; intercept := intercept st;
     tooltip := v; dirty := dirty st; mounted := mounted st;
     scene := scene st; store := store st; timers := timers st;
     clock := clock st; rand := rand st; downloads := downloads st |}.

Definition with_rand (g : Rand) (st : State) : State :=
  {| points := points st; slope := slope st; intercept := intercept st;
     tooltip := tooltip st; dirty := dirty st; mounted := mounted st;
     scene := scene st; store := store st; timers := timers st;
     clock := clock st; rand := g; downloads := downloads st |}.

Definition with_document (sc : option Scene) (paths : gmap loc PathObj)
    (st : State) : State :=
  {| points := points st; slope := slope st; intercept := intercept st;
     tooltip := tooltip st; dirty := dirty st; mounted := mounted st;
     scene := sc; store := paths; timers := timers st;
     clock := clock st; rand := rand st; downloads := downloads st |}.

Definition with_timers (ts : list Timer) (st : State) : State :=
  {| points := points st; slope := slope st; intercept := intercept st;
     tooltip := tooltip st; dirty := dirty st; mounted := mounted st;
     scene := scene st; store := store st; timers := ts;
     clock := clock st; rand := rand st; downloads := downloads st |}.

Definition with_clock (t : nat) (st : State) : State :=
  {| points := points st; slope := slope st; intercept := intercept st;
     tooltip := tooltip st; dirty := dirty st; mounted := mounted st;
     scene := scene st; store := store st; timers := timers st;
     clock := t; rand := rand st; downloads := downloads st |}.

Definition with_downloads (ds : list Download) (st : State) : State :=
  {| points := points st; slope := slope st; intercept := intercept st;
     tooltip := tooltip st; dirty := dirty st; mounted := mounted st;
     scene := scene st; store := store st; timers := timers st;
     clock := clock st; rand := rand st; downloads := ds |}.

Definition with_mounted (v : bool) (st : State) : State :=
  {| points := points st; slope := slope st; intercept := intercept st;
     tooltip := tooltip st; dirty := dirty st; mounted := v;
     scene := scene st; store := store st; timers := timers st;
     clock := clock st; rand := rand st; downloads := downloads st |}.

Definition clean (st : State) : State :=
  {| points := points st; slope := slope st; intercept := intercept st;
     tooltip := tooltip st; dirty := false; mounted := mounted st;
     scene := scene st; store := store st; timers := timers st;
     clock := clock st; rand := rand st; downloads := downloads st |}.

Definition hidden : TooltipState :=
  {| visible := false; tip_x := of_Z 0; tip_y := of_Z 0;
     dataX := None; dataY := None |}.

(** The component before its first render: the initial values of the
    [useState] hooks, no svg element yet. *)
Definition initial (g : Rand) : State :=
  {| points := []; slope := of_Z 0; intercept := of_Z 0; tooltip := hidden;
     dirty := false; mounted := false; scene := None; store := ∅;
     timers := []; clock := 0; rand := g; downloads := [] |}.

(** [Array.from({ length }, f)]: [f] is called on the indices in order;
    here [f] also draws from [Math.random]. *)
Fixpoint Array_from_indices {A : Type} (indices : list nat)
    (f : nat -> Rand -> A * Rand) (g : Rand) : list A * Rand :=
  match indices with
  | [] => ([], g)
  | i :: rest =>
      let (a, g1) := f i g in
      let (l, g2) := Array_from_indices rest f g1 in
      (a :: l, g2)
  end.

Definition Array_from {A : Type} (length : nat)
    (f : nat -> Rand -> A * Rand) (g : Rand) : list A * Rand :=
  Array_from_indices (seq 0 length) f g.

(** [generateData] *)
Definition newPoint (i : nat) (g : Rand) : Point * Rand :=
  let x := add (of_nat i) (of_Z 1) in
  let (r, g1) := Math_random g in
  let y := sub (add (add (mul (of_Q (5 # 2)) x) (of_Z 5)) (mul r (of_Z 5)))
               (of_Q (5 # 2)) in
  ({| px := x; py := y |}, g1).

Definition generateData (st : State) : State :=
  let (newPoints, g) := Array_from 20 newPoint (rand st) in
  setPoints newPoints (with_rand g st).

(** [calculateRegression]: the computation of [m] and [b], and the function
    itself, which also stores them with [setSlope] and [setIntercept]. *)
Definition regression (data : list Point) : Fit :=
  let n := of_nat (length data) in
  let sumX := sum data (fun d => px d) in
  let sumY := sum data (fun d => py d) in
  let sumXY := sum data (fun d => mul (px d) (py d)) in
  let sumXX := sum data (fun d => mul (px d) (px d)) in
  let m := div (sub (mul n sumXY) (mul sumX sumY))
               (sub (mul n sumXX) (mul sumX sumX)) in
  let b := div (sub sumY (mul m sumX)) n in
  {| fit_m := m; fit_b := b |}.

Definition calculateRegression (data : list Point) (st : State) : Fit * State :=
  let r := regression data in
  (r, setIntercept (fit_b r) (setSlope (fit_m r) st)).

(** [downloadPNG]; [toPng] is what the promise returned by html-to-image
    settles to. The function returns nothing; what it does to the component
    is visible in [downloads] only. A rejected capture leaves the component
    as it is; the rejection itself, which nothing handles, is counted on
    the page by [Browser]. *)
Definition downloadPNG (toPng : Settled) (st : State) : State :=
  if mounted st then
    match toPng with
    | Resolved dataUrl =>
        with_downloads
          (downloads st ++ [{| download := "chart.png"; href := dataUrl |}]) st
    | Rejected => st
    end
  else st.

(** The tooltip handlers attached to every circle. *)
Definition mouseenter (event : MouseEvent) (d : Point) (st : State) : State :=
  setTooltip
    {| visible := true; tip_x := clientX event; tip_y := clientY event;
       dataX := Some (px d); dataY := Some (py d) |} st.

Definition mousemove (event : MouseEvent) (st : State) : State :=
  let prev := tooltip st in
  setTooltip
    {| visible := visible prev; tip_x := clientX event; tip_y := clientY event;
       dataX := dataX prev; dataY := dataY prev |} st.

Definition mouseleave (st : State) : State := setTooltip hidden st.

(** The tooltip overlay of the render function: its position and the two
    formatted coordinates ([None] where [?.] meets [null]), as a render
    prints them for the state it sees. *)
Record Overlay : Type := {
  top : T;
  left : T;
  shownX : option Formatted;
  shownY : option Formatted
}.

Definition renderTooltip (st : State) : option Overlay :=
  let t := tooltip st in
  if visible t then
    Some {| top := add (tip_y t) (of_Z 10);
            left := add (tip_x t) (of_Z 10);
            shownX := option_map (fun v => toFixed v 2) (dataX t);
            shownY := option_map (fun v => toFixed v 2) (dataY t) |}
  else None.

(** The "Stats" panel of the render function: what a render prints for
    the state it sees. What is on the page is the output of the last
    render, which [Browser] keeps. *)
Record Stats : Type := {
  statSlope : Formatted;
  statIntercept : Formatted;
  statPoints : nat
}.

Definition renderStats (st : State) : Stats :=
  {| statSlope := toFixed (slope st) 2;
     statIntercept := toFixed (intercept st) 2;
     statPoints := length (points st) |}.

(** [+f(x)]: [undefined] becomes [NaN]. *)
Definition to_number (o : option T) : T :=
  match o with
  | Some v => v
  | None => nan
  end.

(** [lineGenerator], a [d3.line] with the two scales as accessors: the
    screen coordinates the path string is built from, [null] ([None]) on
    empty data. *)
Definition lineGenerator (xScale yScale : Scale T) (data : list Point)
    : option (list (T * T)) :=
  match data with
  | [] => None
  | _ => Some (map (fun d => (to_number (scale xScale (px d)),
                              to_number (scale yScale (py d)))) data)
  end.

(** The samples of the fitted line. *)
Definition linePoints (data : list Point) (r : Fit) : option (list Point) :=
  option_map
    (map (fun x => {| px := x; py := add (mul (fit_m r) x) (fit_b r) |}))
    (range (of_Z 0) (add (to_number (max data (fun d => px d))) (of_Z 1))
           (of_Q (1 # 2))).

Definition xScaleOf (data : list Point) : Scale T :=
  {| d0 := of_Z 0;
     d1 := add (to_number (max data (fun d => px d))) (of_Z 1);
     r0 := of_Z 40;
     r1 := sub (of_Z 600) (of_Z 30) |}.

Definition yScaleOf (data : list Point) : Scale T :=
  {| d0 := of_Z 0;
     d1 := add (to_number (max data (fun d => py d))) (of_Z 5);
     r0 := sub (of_Z 400) (of_Z 30);
     r1 := of_Z 40 |}.

(** The [forEach] that registers one timer per line sample. *)
Definition schedule (now : nat) (p : loc) (lp : list Point)
    (xScale yScale : Scale T) : list Timer :=
  map (fun i => {| due := now + i * 50; tm_path := p; tm_linePoints := lp;
                   tm_i := i; tm_xScale := xScale; tm_yScale := yScale |})
      (seq 0 (length lp)).

(** The effect that draws the chart. [None] is an exception escaping the
    effect (the [RangeError] of [d3.range]). *)
Definition drawChart (st : State) : option State :=
  match points st with
  | [] => Some st
  | _ =>
      let (r, st1) := calculateRegression (points st) st in
      let xScale := xScaleOf (points st) in
      let yScale := yScaleOf (points st) in
      let cs := map (fun d => {| cx := scale xScale (px d);
                                 cy := scale yScale (py d);
                                 bound := d |}) (points st) in
      match linePoints (points st) r with
      | None => None
      | Some lp =>
          let p := fresh (dom (store st1)) in
          let paths := <[p := {| datum := []; d_attr := None |}]> (store st1) in
          let sc := {| xAxis := xScale; yAxis := yScale;
                       circles := cs; path := p |} in
          Some (with_timers (timers st1 ++ schedule (clock st1) p lp xScale yScale)
                  (with_document (Some sc) paths st1))
      end
  end.

(** A timer callback: [path.datum(linePoints.slice(0, i + 1))] and then
    [attr("d", lineGenerator)]. *)
Definition segmentCallback (tm : Timer) (st : State) : State :=
  let currentData := firstn (tm_i tm + 1) (tm_linePoints tm) in
  with_document (scene st)
    (<[tm_path tm :=
         {| datum := currentData;
            d_attr := lineGenerator (tm_xScale tm) (tm_yScale tm)
                                    currentData |}]> (store st))
    st.

(** The timer the event loop runs next, with the timers that stay in the
    queue: the earliest due, the first registered among equals. *)
Fixpoint earliest (ts : list Timer) : option (Timer * list Timer) :=
  match ts with
  | [] => None
  | tm :: rest =>
      match earliest rest with
      | Some (tm', rest') =>
          if (due tm' <? due tm)%nat then Some (tm', tm :: rest')
          else Some (tm, rest)
      | None => Some (tm, rest)
      end
  end.

(** Running the next timer, if one is due. *)
Definition fireTimer (st : State) : option State :=
  match earliest (timers st) with
  | Some (tm, rest) =>
      if (due tm <=? clock st)%nat
      then Some (segmentCallback tm (with_timers rest st))
      else None
  | None => None
  end.

(** What happens to the component. *)
Inductive Event : Type :=
  | Mount
  | ClickGenerate
  | FlushEffect
  | Elapse (ms : nat)
  | FireTimer
  | MouseEnter (i : nat) (event : MouseEvent)
  | MouseMove (i : nat) (event : MouseEvent)
  | MouseLeave (i : nat)
  | ClickDownload (toPng : Settled).

Definition circleAt (i : nat) (st : State) : option Circle :=
  match scene st with
  | Some sc => nth_error (circles sc) i
  | None => None
  end.

(** One event. The first render attaches the svg element and runs the two
    effects of the component in order: the drawing effect, which returns at
    once on the empty sample, and the one that calls [generateData]. Later
    the drawing effect runs when [points] has changed. [None] is an
    exception that escapes the component. *)
Definition react (ev : Event) (st : State) : option State :=
  match ev with
  | Mount =>
      if mounted st then Some st
      else
        match drawChart (with_mounted true st) with
        | Some st1 => Some (generateData st1)
        | None => None
        end
  | ClickGenerate => if mounted st then Some (generateData st) else Some st
  | FlushEffect =>
      if mounted st && dirty st then drawChart (clean st) else Some st
  | Elapse ms => Some (with_clock (clock st + ms) st)
  | FireTimer =>
      match fireTimer st with
      | Some st1 => Some st1
      | None => Some st
      end
  | MouseEnter i event =>
      match circleAt i st with
      | Some c => Some (mouseenter event (bound c) st)
      | None => Some st
      end
  | MouseMove i event =>
      match circleAt i st with
      | Some c => Some (mousemove event st)
      | None => Some st
      end
  | MouseLeave i =>
      match circleAt i st with
      | Some c => Some (mouseleave st)
      | None => Some st
      end
  | ClickDownload toPng => Some (downloadPNG toPng st)
  end.

Fixpoint run (evs : list Event) (st : State) : option State :=
  match evs with
  | [] => Some st
  | ev :: rest =>
      match react ev st with
      | Some st1 => run rest st1
      | None => None
      end
  end.

End WithNumber.

Arguments Point T : clear implicits.
Arguments Fit T : clear implicits.
Arguments TooltipState T : clear implicits.
Arguments MouseEvent T : clear implicits.
Arguments Rand T : clear implicits.
Arguments PathObj T : clear implicits.
Arguments Circle T : clear implicits.
Arguments Scene T : clear implicits.
Arguments Timer T : clear implicits.
Arguments State T : clear implicits.
Arguments Overlay T : clear implicits.
Arguments Event T : clear implicits.
End Chart.

(** ** The page in the browser *)

(** React calls the component function, commits what it returns to the
    document and then runs the effects; a setter called by a handler or by
    an effect only schedules the next render. So the Stats panel and the
    tooltip overlay on the page are those of the last render, while d3
    changes the svg element at once. A promise that rejects without a
    handler is reported by the browser as an unhandled rejection. *)
Module Browser.
Import Chart.

Section WithNumber.
Context {T : Type} {num : Number T}.

(** The output of one render of the JSX outside the svg element. *)
Record Rendered : Type := {
  stats : Stats;
  tip : option (Overlay T)
}.

Definition render (st : State T) : Rendered :=
  {| stats := renderStats st; tip := renderTooltip st |}.

(** The page: the component with the chart in its svg element, the output
    of the last render ([None] before the first one) and the number of
    rejections that nothing handled. *)
Record Page : Type := {
  component : State T;
  rendered : option Rendered;
  unhandled : nat
}.

Definition load (g : Rand T) : Page :=
  {| component := initial g; rendered := None; unhandled := 0 |}.

(** Whether React renders at an event: the first render, and every later
    one, which is followed by the drawing effect when [points] has
    changed. The render sees the state as it is before the effects run. *)
Definition renders (ev : Event T) (st : State T) : bool :=
  match ev with
  | Mount => negb (mounted st)
  | FlushEffect => mounted st
  | _ => false
  end.

(** Whether an event leaves a rejected promise behind:
    [toPng(...).then(f)] has no second callback and no [catch], so a
    rejected capture rejects the promise [then] returns, which nothing
    holds. *)
Definition rejects (ev : Event T) (st : State T) : bool :=
  match ev with
  | ClickDownload toPng =>
      if mounted st then
        match toPng with
        | Resolved _ => false
        | Rejected => true
        end
      else false
  | _ => false
  end.

(** One event on the page. [None] is an exception that escapes the
    component. *)
Definition step (ev : Event T) (pg : Page) : option Page :=
  let st := component pg in
  match react ev st with
  | Some st' =>
      Some {| component := st';
              rendered := if renders ev st then Some (render st)
                          else rendered pg;
              unhandled := if rejects ev st then S (unhandled pg)
                           else unhandled pg |}
  | None => None
  end.

Fixpoint browse (evs : list (Event T)) (pg : Page) : option Page :=
  match evs with
  | [] => Some pg
  | ev :: rest =>
      match step ev pg with
      | Some pg1 => browse rest pg1
      | None => None
      end
  end.

End WithNumber.

Arguments Rendered T : clear implicits.
Arguments Page T : clear implicits.
End Browser.

(** ** The specification's vocabulary *)

Module Spec.
Import Chart D3.

(** A Sample given by rational coordinates, as the component holds it in
    a number model: these are the points with finite coordinates. *)
Definition sample_of {T : Type} {num : Number T} (pts : list (Q * Q))
    : list (Point T) :=
  map (fun p => {| px := of_Q (fst p); py := of_Q (snd p) |}) pts.

Definition Qsum (l : list Q) : Q := fold_right Qplus 0%Q l.

Definition size (pts : list (Q * Q)) : Q := inject_Z (Z.of_nat (length pts)).
Definition sumX (pts : list (Q * Q)) : Q := Qsum (map fst pts).
Definition sumY (pts : list (Q * Q)) : Q := Qsum (map snd pts).
Definition sumXY (pts : list (Q * Q)) : Q :=
  Qsum (map (fun p => fst p * snd p)%Q pts).
Definition sumXX (pts : list (Q * Q)) : Q :=
  Qsum (map (fun p => fst p * fst p)%Q pts).

(** The closed-form ordinary-least-squares formulas, as the specification
    writes them. *)
Definition ols_slope (pts : list (Q * Q)) : Q :=
  ((size pts * sumXY pts - sumX pts * sumY pts)
   / (size pts * sumXX pts - sumX pts * sumX pts))%Q.

Definition ols_intercept (pts : list (Q * Q)) : Q :=
  ((sumY pts - ols_slope pts * sumX pts) / size pts)%Q.

(** The x values of the Sample are not all identical. *)
Definition distinct_x (pts : list (Q * Q)) : Prop :=
  exists p q, In p pts /\ In q pts /\ ~ (fst p == fst q)%Q.

(** All the x values of the Sample are identical. *)
Definition identical_x (pts : list (Q * Q)) : Prop :=
  forall p q, In p pts -> In q pts -> (fst p == fst q)%Q.

(** The sum [d3.sum] computes on rationals: zeros are skipped. *)
Definition sum_skip (l : list Q) : Q :=
  fold_left (fun acc v => if negb (Qzero v) then (acc + v)%Q else acc) l 0%Q.

(** The dividend and the divisor of the slope, as the code computes them
    on a rational Sample. *)
Definition numerator (pts : list (Q * Q)) : Q :=
  (size pts * sum_skip (map (fun p => fst p * snd p) pts)
   - sum_skip (map fst pts) * sum_skip (map snd pts))%Q.

Definition denominator (pts : list (Q * Q)) : Q :=
  (size pts * sum_skip (map (fun p => fst p * fst p) pts)
   - sum_skip (map fst pts) * sum_skip (map fst pts))%Q.

(** [n * sum (f * g) - sum f * sum g], of which the dividend and the divisor
    of the slope are instances. *)
Definition cross (f g : Q * Q -> Q) (l : list (Q * Q)) : Q :=
  (size l * Qsum (map (fun p => f p * g p) l)
   - Qsum (map f l) * Qsum (map g l))%Q.

(** The contract of [Math.random]: every draw is a number in [[0, 1)]. *)
Definition unit_interval {T : Type} {num : Number T} (g : Rand T) : Prop :=
  forall k, exists q, value (stream g k) = Fin q /\ (0 <= q < 1)%Q.

(** A number printed with two decimals: an optional sign, then the decimal
    digits of [n], the integer nearest to a hundred times the magnitude
    (the larger one of two), padded to three digits at least, with the
    point before the last two. *)
Definition hundredths (q : Q) : Z :=
  Qfloor (Qabs q * inject_Z 100 + (1 # 2))%Q.

Definition padded3 (m : string) : string :=
  if (String.length m <=? 2)%nat
  then (zeros (3 - String.length m) ++ m)%string
  else m.

Definition two_decimals (q : Q) (f : Formatted) : Prop :=
  exists whole frac : string,
    f = Text ((if Qnegative q then "-" else "") ++ whole ++ "." ++ frac)%string
    /\ String.length frac = 2%nat
    /\ (whole ++ frac)%string = padded3 (decimal (hundredths q)).

Section Displayed.
Context {T : Type} {num : Number T}.

(** What hovering the circle [c], the [i]-th of the scene, and then leaving
    it does to a state [st]: entering shows the tooltip with the
    coordinates of the point bound to [c], of values [qx] and [qy], printed
    with two decimals; leaving hides it and empties the coordinates. *)
Definition hover_outcome (st : State T) (i : nat) (c : Circle T)
    (event : MouseEvent T) (qx qy : Q) : Prop :=
  exists st1 st2 overlay,
    react (MouseEnter i event) st = Some st1
    /\ tooltip st1
       = {| visible := true;
            tip_x := clientX event; tip_y := clientY event;
            dataX := Some (px (bound c)); dataY := Some (py (bound c)) |}
    /\ renderTooltip st1 = Some overlay
    /\ shownX overlay = Some (toFixed (px (bound c)) 2)
    /\ shownY overlay = Some (toFixed (py (bound c)) 2)
    /\ two_decimals qx (toFixed (px (bound c)) 2)
    /\ two_decimals qy (toFixed (py (bound c)) 2)
    /\ react (MouseLeave i) st1 = Some st2
    /\ visible (tooltip st2) = false
    /\ dataX (tooltip st2) = None
    /\ dataY (tooltip st2) = None
    /\ renderTooltip st2 = None.

(** The circles the drawing effect makes for a Sample. *)
Definition circlesOf (S : list (Point T)) : list (Circle T) :=
  map (fun d => {| cx := scale (xScaleOf S) (px d);
                   cy := scale (yScaleOf S) (py d);
                   bound := d |}) S.

(** The scene [sc] of the state [st] displays the Sample [S] together with
    the Fit of [S]: its circles and axes are those of [S], the slope and the
    intercept of the component are the regression of [S], and the path of
    the scene holds a prefix of the line samples computed from [S] and that
    regression, drawn through the scales of [S]. *)
Definition displays (st : State T) (sc : Scene T) (S : list (Point T)) : Prop :=
  S <> []
  /\ circles sc = circlesOf S
  /\ xAxis sc = xScaleOf S
  /\ yAxis sc = yScaleOf S
  /\ slope st = fit_m (regression S)
  /\ intercept st = fit_b (regression S)
  /\ exists lp po k,
       linePoints S (regression S) = Some lp
       /\ store st !! path sc = Some po
       /\ datum po = firstn k lp
       /\ d_attr po = lineGenerator (xScaleOf S) (yScaleOf S) (firstn k lp).

(** Every pending timer refers to a path of the store. *)
Definition timers_allocated (st : State T) : Prop :=
  forall tm, In tm (timers st) -> is_Some (store st !! tm_path tm).

(** The pending timers that refer to the path of the scene carry the line
    samples and the scales of the Sample the scene displays. *)
Definition timers_current (st : State T) (sc : Scene T) (S : list (Point T))
    : Prop :=
  forall tm, In tm (timers st) -> tm_path tm = path sc ->
    linePoints S (regression S) = Some (tm_linePoints tm)
    /\ tm_xScale tm = xScaleOf S
    /\ tm_yScale tm = yScaleOf S.

Definition coherent (st : State T) : Prop :=
  timers_allocated st
  /\ forall sc, scene st = Some sc ->
       exists S, displays st sc S /\ timers_current st sc S.

(** Once the drawing effect has run for a non-empty Sample, the scene shows
    that Sample. *)
Definition up_to_date (st : State T) : Prop :=
  dirty st = false -> points st <> [] ->
  exists sc, scene st = Some sc /\ map bound (circles sc) = points st.

End Displayed.

(** A point with finite coordinates of magnitude below [10^21], and the
    states all of whose points, in the Sample and in the scene, are such
    and whose random engine keeps the contract of [Math.random]. *)
Definition small (p : Point xnum) : Prop :=
  exists x y,
    p = {| px := Fin x; py := Fin y |}
    /\ (Qabs x < inject_Z (10 ^ 21))%Q /\ (Qabs y < inject_Z (10 ^ 21))%Q.

Definition generated (st : State xnum) : Prop :=
  unit_interval (rand st)
  /\ (forall p, In p (points st) -> small p)
  /\ (forall sc c, scene st = Some sc -> In c (circles sc) -> small (bound c)).

(** A generated point keeps the noise bound. *)
Definition within_noise {T : Type} {num : Number T} (p : Point T) : bool :=
  match value (px p), value (py p) with
  | Fin x, Fin y => Qle_bool (Qabs (y - ((5 # 2) * x + 5))) (5 # 2)
  | _, _ => false
  end.

End Spec.

(** ** Concrete data *)

Module Examples.
Import Chart Spec.

(** The perfectly linear Sample and the degenerate Sample of the
    specification. *)
Definition linear3 : list (Q * Q) := [(1, 3); (2, 5); (3, 7)]%Q.
Definition degenerate2 : list (Q * Q) := [(1, 1); (1, 3)]%Q.

(** Random engines: one cycling through the tenths from 0 to 0.6 and one
    constant in exact arithmetic, one cycling through eighths in binary64. *)
Definition tenths : Rand xnum :=
  {| stream := fun k => Fin (Z.of_nat (k mod 7) # 10); cursor := 0 |}.

Definition halves : Rand xnum :=
  {| stream := fun _ => Fin (1 # 2); cursor := 0 |}.

(** The least and the greatest draw of [Math.random] in binary64. *)
Definition lowest : Rand float :=
  {| stream := fun _ => PrimFloat.zero; cursor := 0 |}.

Definition highest : Rand float :=
  {| stream := fun _ => PrimFloat.next_down PrimFloat.one; cursor := 0 |}.

Definition eighths : Rand float :=
  {| stream := fun k => PrimFloat.div (float_of_Z (Z.of_nat (k mod 8)))
                                      (float_of_Z 8);
     cursor := 0 |}.

(** The state a sequence of events leads to from the first render. *)
Definition after {T : Type} {num : Number T} (evs : list (Event T))
    (g : Rand T) : State T :=
  match run evs (initial g) with
  | Some st => st
  | None => initial g
  end.

(** A first draw, of which two line segments have appeared. *)
Definition two_segments : list (Event xnum) :=
  [Mount; FlushEffect; Elapse 100; FireTimer; FireTimer].


Definition pointer : MouseEvent xnum :=
  {| clientX := Fin 120; clientY := Fin 80 |}.

Definition no_circle : Circle xnum :=
  {| cx := None; cy := None; bound := {| px := NaN; py := NaN |} |}.

Definition no_scene : Scene xnum :=
  {| xAxis := xScaleOf []; yAxis := yScaleOf []; circles := []; path := 0 |}.

Definition scene_of (st : State xnum) : Scene xnum :=
  match scene st with
  | Some sc => sc
  | None => no_scene
  end.



Definition first_circle : Circle xnum :=
  match circleAt 0 (after two_segments tenths) with
  | Some c => c
  | None => no_circle
  end.

End Examples.

(** ** The vocabulary of the further properties *)

Module Coverage.
Import Chart D3 Spec.

(** The total squared vertical residual of the line [y = m * x + b] on a
    rational Sample, and the sum of the squares of its y values. *)
Definition sse (m b : Q) (pts : list (Q * Q)) : Q :=
  Qsum (map (fun p => (snd p - (m * fst p + b)) * (snd p - (m * fst p + b)))%Q
            pts).

Definition sumYY (pts : list (Q * Q)) : Q :=
  Qsum (map (fun p => snd p * snd p)%Q pts).

(** The Sample with every y value replaced by [s * y + k]. *)
Definition rescale_y (s k : Q) (pts : list (Q * Q)) : list (Q * Q) :=
  map (fun p => (fst p, s * snd p + k)%Q) pts.

(** The rational a finite number denotes (zero for the others). *)
Definition qvalue (v : xnum) : Q :=
  match v with
  | Fin q => q
  | _ => 0%Q
  end.

(** The rational Sample [generateData] builds, in exact arithmetic, from the
    draws [q 0], ..., [q 19]. *)
Definition generated_sample (q : nat -> Q) : list (Q * Q) :=
  map (fun i =>
         let x := (inject_Z (Z.of_nat i) + inject_Z 1)%Q in
         (x, ((5 # 2) * x + inject_Z 5 + q i * inject_Z 5 - (5 # 2))%Q))
      (seq 0 20).

(** The x values of every generated Sample. *)
Definition xs20 {T : Type} {num : Number T} : list T :=
  map (fun k => of_Z (Z.of_nat k)) (seq 1 20).

(** The x values of the line samples of every generated Sample: the
    halves from 0 to 20.5. *)
Definition halves42 {T : Type} {num : Number T} : list T :=
  map (fun i => of_Q (Z.of_nat i # 2)) (seq 0 42).

(** A Sample of the generator, in exact arithmetic: the Sample of twenty
    draws from [[0, 1)]. *)
Definition from_draws (S : list (Point xnum)) : Prop :=
  exists q : nat -> Q,
    (forall i, 0 <= q i < 1)%Q /\ S = sample_of (generated_sample q).

Section Samples.
Context {T : Type} {num : Number T}.

(** The files a sequence of events hands to the browser: one [chart.png]
    per click on the export button whose capture resolves, once the
    component is mounted. *)
Fixpoint exported (is_mounted : bool) (evs : list (Event T)) : list Download :=
  match evs with
  | [] => []
  | Mount :: rest => exported true rest
  | ClickDownload (Resolved dataUrl) :: rest =>
      if is_mounted
      then {| download := "chart.png"; href := dataUrl |}
           :: exported is_mounted rest
      else exported is_mounted rest
  | _ :: rest => exported is_mounted rest
  end.

(** An event of the pointer on a circle. *)
Definition is_mouse (ev : Event T) : bool :=
  match ev with
  | MouseEnter _ _ | MouseMove _ _ | MouseLeave _ => true
  | _ => false
  end.

(** The tooltip either is hidden and holds no coordinates, or is visible
    and holds both coordinates of one point. *)
Definition tooltip_whole (t : TooltipState T) : Prop :=
  (visible t = false /\ dataX t = None /\ dataY t = None)
  \/ (visible t = true
      /\ exists d : Point T, dataX t = Some (px d) /\ dataY t = Some (py d)).

(** Every Sample the state holds, in [points] or on display, satisfies
    [good], and the random engine satisfies [engine]. *)
Definition samples_are (engine : Rand T -> Prop)
    (good : list (Point T) -> Prop) (st : State T) : Prop :=
  engine (rand st)
  /\ (points st = [] \/ good (points st))
  /\ (forall sc, scene st = Some sc -> good (map bound (circles sc))).

(** What the overlay shows for a tooltip: nothing, or both coordinates of
    one point with two decimals asked for. *)
Definition overlay_whole (o : option (Overlay T)) : Prop :=
  o = None
  \/ exists ov (d : Point T),
       o = Some ov
       /\ shownX ov = Some (toFixed (px d) 2)
       /\ shownY ov = Some (toFixed (py d) 2).

End Samples.

(** A circle drawn inside the plot area: between the left margin and the
    right one, and between the top margin and the bottom one. *)
Definition inside_plot (c : Circle xnum) : Prop :=
  exists u v,
    cx c = Some (Fin u) /\ cy c = Some (Fin v)
    /\ (40 <= u <= 570)%Q /\ (40 <= v <= 370)%Q.

(** Concrete runs. The samples of the line of the first draw. *)
Definition drawn_line : list (Point xnum) :=
  match linePoints (points (Examples.after [Mount] Examples.tenths))
                   (regression (points (Examples.after [Mount] Examples.tenths)))
  with
  | Some lp => lp
  | None => []
  end.

(** A click before the first render, then a rejected capture and two
    resolved ones around new data. *)
Definition export_session : list (Event xnum) :=
  [ClickDownload (Resolved "data:early"); Mount; FlushEffect;
   ClickDownload Rejected; ClickDownload (Resolved "data:first");
   ClickGenerate; ClickDownload (Resolved "data:second")].

(** The pointer enters the first circle; new data arrive and are drawn
    while the tooltip is shown. *)
Definition hover_session : list (Event xnum) :=
  [Mount; FlushEffect; MouseEnter 0 Examples.pointer; ClickGenerate;
   FlushEffect].

Definition pointer_moved : MouseEvent xnum :=
  {| clientX := Fin 125; clientY := Fin 77 |}.

(** An engine that agrees with [tenths] on the first twenty draws only. *)
Definition tenths_then_halves : Rand xnum :=
  {| stream := fun k => if (k <? 20)%nat
                        then Fin (Z.of_nat (k mod 7) # 10) else Fin (1 # 2);
     cursor := 0 |}.

End Coverage.

(** ** Further examples *)

Module Pages.
Import Chart Spec Browser.

(** Three points on the line [y = x - 39999999], with x values that
    binary64 represents exactly, and a Sample of three points at
    [x = 0.7]. *)
Definition large3 : list (Q * Q) :=
  [(40000000, 1); (40000001, 2); (40000002, 3)]%Q.

Definition sevenths : list (Q * Q) := [(7 # 10, 1); (7 # 10, 2); (7 # 10, 4)]%Q.

(** The page a sequence of events leads to from the first load. *)
Definition page_after {T : Type} {num : Number T} (evs : list (Event T))
    (g : Rand T) : Page T :=
  match browse evs (load g) with
  | Some pg => pg
  | None => load g
  end.

(** The first draw, before React renders again. *)
Definition first_draw : list (Event xnum) := [Mount; FlushEffect].

(** The first draw, the render that follows it, new data and their draw,
    before React renders again. *)
Definition second_draw : list (Event xnum) :=
  [Mount; FlushEffect; FlushEffect; ClickGenerate; FlushEffect].

Definition nothing_rendered : Rendered xnum :=
  {| stats := {| statSlope := Text ""; statIntercept := Text "";
                 statPoints := 0 |};
     tip := None |}.

Definition rendered_of (pg : Page xnum) : Rendered xnum :=
  match rendered pg with
  | Some r => r
  | None => nothing_rendered
  end.

(** The number of clicks on the export button whose capture rejects while
    the svg element is attached. *)
Fixpoint rejected_captures {T : Type} (is_mounted : bool)
    (evs : list (Event T)) : nat :=
  match evs with
  | [] => 0
  | Mount :: rest => rejected_captures true rest
  | ClickDownload Rejected :: rest =>
      (if is_mounted then 1 else 0) + rejected_captures is_mounted rest
  | _ :: rest => rejected_captures is_mounted rest
  end.

End Pages.

(** * Properties *)

Import Chart D3 Spec Examples.
Import Browser Pages.

Lemma Some_eq {A : Type} (a b : A) : Some a = Some b -> a = b.
Proof. intros E. congruence. Qed.

(** An event that returned the state [st']: name it by what was computed. *)
Ltac returned Hr st' := apply Some_eq in Hr; subst st'.

(** ** The sums *)

Section Sums.
Local Open Scope Q_scope.

Lemma Qzero_true (q : Q) : Qzero q = true <-> q == 0.
Proof. unfold Qzero. apply Qeq_bool_iff. Qed.

Lemma Qzero_false (q : Q) : Qzero q = false <-> ~ q == 0.
Proof.
  unfold Qzero. split.
  - apply Qeq_bool_neq.
  - intros Hq. destruct (Qeq_bool q 0) eqn:E; [|reflexivity].
    apply Qeq_bool_iff in E. contradiction.
Qed.

Lemma fold_skip_acc (l : list Q) (acc : Q) :
  fold_left (fun a v => if negb (Qzero v) then a + v else a) l acc
  == acc + Qsum l.
Proof.
  revert acc. induction l as [|v l IH]; intros acc; simpl.
  - ring.
  - rewrite IH. destruct (Qzero v) eqn:E; simpl.
    + apply Qzero_true in E. rewrite E. ring.
    + ring.
Qed.

Lemma sum_skip_Qsum (l : list Q) : sum_skip l == Qsum l.
Proof. unfold sum_skip. rewrite fold_skip_acc. ring. Qed.

(** [d3.sum] on a finite Sample stays finite. *)
Lemma sum_sample (pts : list (Q * Q)) (valueof : Point xnum -> xnum)
    (g : Q * Q -> Q) :
  (forall p, valueof {| px := Fin (fst p); py := Fin (snd p) |} = Fin (g p)) ->
  sum (sample_of pts) valueof = Fin (sum_skip (map g pts)).
Proof.
  intros Hv. unfold sum, sum_skip, sample_of, of_Z. cbn [of_Q exact].
  change (inject_Z 0) with 0.
  generalize 0 as acc.
  induction pts as [|p pts IH]; intros acc; cbn [map fold_left].
  - reflexivity.
  - rewrite Hv.
    change (truthy (Fin (g p))) with (negb (Qzero (g p))).
    destruct (Qzero (g p)); cbn [negb]; [apply IH|].
    change (add (Fin acc) (Fin (g p))) with (Fin (acc + g p)). apply IH.
Qed.

Lemma size_cons (p : Q * Q) (l : list (Q * Q)) : size (p :: l) == size l + 1.
Proof.
  unfold size. cbn [length]. rewrite Nat2Z.inj_succ, <- Z.add_1_r.
  rewrite inject_Z_plus. reflexivity.
Qed.

Lemma size_nonneg (l : list (Q * Q)) : 0 <= size l.
Proof.
  unfold size. change 0 with (inject_Z 0). rewrite <- Zle_Qle. lia.
Qed.

Lemma Qsum_products (f g : Q * Q -> Q) (a b : Q) (l : list (Q * Q)) :
  Qsum (map (fun q => (a - f q) * (b - g q)) l)
  == size l * a * b - a * Qsum (map g l) - b * Qsum (map f l)
     + Qsum (map (fun q => f q * g q) l).
Proof.
  induction l as [|q l IH].
  - unfold size. simpl. ring.
  - rewrite size_cons. cbn [map Qsum fold_right]. fold (Qsum (map (fun q => (a - f q) * (b - g q)) l)).
    fold (Qsum (map g l)). fold (Qsum (map f l)).
    fold (Qsum (map (fun q => f q * g q) l)).
    rewrite IH. ring.
Qed.

(** Adding a point to the Sample adds its products of differences with
    every other point. *)
Lemma cross_cons (f g : Q * Q -> Q) (p : Q * Q) (l : list (Q * Q)) :
  cross f g (p :: l)
  == cross f g l + Qsum (map (fun q => (f p - f q) * (g p - g q)) l).
Proof.
  rewrite Qsum_products. unfold cross. rewrite size_cons.
  cbn [map Qsum fold_right].
  fold (Qsum (map g l)). fold (Qsum (map f l)).
  fold (Qsum (map (fun q => f q * g q) l)).
  ring.
Qed.

Lemma Qsquare_nonneg (x : Q) : 0 <= x * x.
Proof.
  destruct (Qlt_le_dec x 0) as [Hneg|Hpos].
  - assert (E : x * x == (- x) * (- x)) by ring. rewrite E.
    apply Qmult_le_0_compat; lra.
  - apply Qmult_le_0_compat; assumption.
Qed.

Lemma Qsquare_pos (x : Q) : ~ x == 0 -> 0 < x * x.
Proof.
  intros Hx. destruct (Q_dec x 0) as [[Hneg|Hpos]|Hz]; [| |contradiction].
  - assert (E : x * x == (- x) * (- x)) by ring. rewrite E.
    apply Qmult_lt_0_compat; lra.
  - apply Qmult_lt_0_compat; assumption.
Qed.

Lemma Qsum_squares_nonneg (f : Q * Q -> Q) (a : Q) (l : list (Q * Q)) :
  0 <= Qsum (map (fun q => (a - f q) * (a - f q)) l).
Proof.
  induction l as [|q l IH]; cbn [map Qsum fold_right].
  - apply Qle_refl.
  - fold (Qsum (map (fun q => (a - f q) * (a - f q)) l)).
    pose proof (Qsquare_nonneg (a - f q)). lra.
Qed.

Lemma Qsum_squares_pos (f : Q * Q -> Q) (a : Q) (l : list (Q * Q)) (q : Q * Q) :
  In q l -> ~ a == f q ->
  0 < Qsum (map (fun q => (a - f q) * (a - f q)) l).
Proof.
  induction l as [|r l IH]; intros Hin Hne; [destruct Hin|].
  cbn [map Qsum fold_right].
  fold (Qsum (map (fun q => (a - f q) * (a - f q)) l)).
  pose proof (Qsum_squares_nonneg f a l) as Hl.
  destruct Hin as [->|Hin].
  - assert (0 < (a - f q) * (a - f q)).
    { apply Qsquare_pos. intros E. apply Hne. lra. }
    lra.
  - specialize (IH Hin Hne).
    pose proof (Qsquare_nonneg (a - f r)). lra.
Qed.

Lemma Qsum_zero_terms (h : Q * Q -> Q) (l : list (Q * Q)) :
  (forall q, In q l -> h q == 0) -> Qsum (map h l) == 0.
Proof.
  induction l as [|q l IH]; intros Hz; cbn [map Qsum fold_right].
  - reflexivity.
  - fold (Qsum (map h l)). rewrite (Hz q (or_introl eq_refl)), IH.
    + ring.
    + intros r Hr. apply Hz. right. exact Hr.
Qed.

Lemma cross_square_nonneg (f : Q * Q -> Q) (l : list (Q * Q)) :
  0 <= cross f f l.
Proof.
  induction l as [|p l IH].
  - unfold cross, size. simpl. lra.
  - rewrite cross_cons. pose proof (Qsum_squares_nonneg f (f p) l). lra.
Qed.

(** The divisor is positive as soon as two points differ in [f]. *)
Lemma cross_square_pos (f : Q * Q -> Q) (l : list (Q * Q)) :
  (exists p q, In p l /\ In q l /\ ~ f p == f q) -> 0 < cross f f l.
Proof.
  induction l as [|r l IH]; intros (p & q & Hp & Hq & Hne).
  - destruct Hp.
  - rewrite cross_cons.
    pose proof (Qsum_squares_nonneg f (f r) l) as Hs.
    pose proof (cross_square_nonneg f l) as Hc.
    destruct Hp as [->|Hp], Hq as [->|Hq].
    + exfalso. apply Hne. reflexivity.
    + pose proof (Qsum_squares_pos f (f p) l q Hq Hne). lra.
    + assert (Hne' : ~ f q == f p) by (intros E; apply Hne; symmetry; exact E).
      pose proof (Qsum_squares_pos f (f q) l p Hp Hne'). lra.
    + assert (0 < cross f f l) by (apply IH; exists p, q; auto). lra.
Qed.

(** With identical [f] values every product of differences vanishes. *)
Lemma cross_identical (f g : Q * Q -> Q) (l : list (Q * Q)) :
  (forall p q, In p l -> In q l -> f p == f q) -> cross f g l == 0.
Proof.
  induction l as [|r l IH]; intros Hid.
  - unfold cross, size. simpl. ring.
  - rewrite cross_cons, IH.
    + rewrite Qsum_zero_terms; [ring|].
      intros q Hq. rewrite (Hid r q); [ring|left; reflexivity|right; exact Hq].
    + intros p q Hp Hq. apply Hid; right; assumption.
Qed.

Lemma numerator_cross (pts : list (Q * Q)) :
  numerator pts == cross fst snd pts.
Proof. unfold numerator, cross. rewrite !sum_skip_Qsum. reflexivity. Qed.

Lemma denominator_cross (pts : list (Q * Q)) :
  denominator pts == cross fst fst pts.
Proof. unfold denominator, cross. rewrite !sum_skip_Qsum. reflexivity. Qed.

End Sums.

(** ** The regression on a rational Sample *)

Section Regression.
Local Open Scope Q_scope.

(** [regression] on a finite Sample, its sums evaluated. *)
Lemma regression_sample (pts : list (Q * Q)) :
  regression (sample_of pts) =
  let m := xdiv (Fin (numerator pts)) (Fin (denominator pts)) in
  {| fit_m := m;
     fit_b := xdiv (xsub (Fin (sum_skip (map snd pts)))
                         (xmul m (Fin (sum_skip (map fst pts)))))
                   (Fin (size pts)) |}.
Proof.
  unfold regression.
  rewrite (sum_sample pts (fun d => px d) fst) by reflexivity.
  rewrite (sum_sample pts (fun d => py d) snd) by reflexivity.
  rewrite (sum_sample pts (fun d => mul (px d) (py d))
             (fun p => fst p * snd p)) by reflexivity.
  rewrite (sum_sample pts (fun d => mul (px d) (px d))
             (fun p => fst p * fst p)) by reflexivity.
  replace (of_nat (length (sample_of pts))) with (Fin (size pts))
    by (unfold sample_of; rewrite length_map; reflexivity).
  reflexivity.
Qed.

Lemma distinct_x_size (pts : list (Q * Q)) : distinct_x pts -> 0 < size pts.
Proof.
  intros (p & _ & Hp & _). destruct pts as [|r l]; [destruct Hp|].
  rewrite size_cons. pose proof (size_nonneg l). lra.
Qed.

(** On a Sample with two different x values the divisions are ordinary
    divisions of rationals, and their results are the closed forms. *)
Lemma regression_ols (pts : list (Q * Q)) :
  distinct_x pts ->
  exists m b,
    regression (sample_of pts) = {| fit_m := Fin m; fit_b := Fin b |}
    /\ m == ols_slope pts /\ b == ols_intercept pts
    /\ 0 < size pts * sumXX pts - sumX pts * sumX pts.
Proof.
  intros Hd.
  assert (Hpos : 0 < cross fst fst pts) by (apply cross_square_pos; exact Hd).
  assert (Hden : Qzero (denominator pts) = false).
  { apply Qzero_false. rewrite denominator_cross. lra. }
  assert (Hn : Qzero (size pts) = false).
  { apply Qzero_false. pose proof (distinct_x_size pts Hd). lra. }
  exists (numerator pts / denominator pts).
  exists ((sum_skip (map snd pts)
           - numerator pts / denominator pts * sum_skip (map fst pts))
          / size pts).
  split; [|split; [|split]].
  - rewrite regression_sample. cbn [xdiv xsub xmul]. rewrite Hden.
    cbn [xdiv xsub xmul]. rewrite Hn. reflexivity.
  - rewrite numerator_cross, denominator_cross. reflexivity.
  - unfold ols_intercept, ols_slope.
    rewrite numerator_cross, denominator_cross, !sum_skip_Qsum. reflexivity.
  - exact Hpos.
Qed.

(** On a Sample whose x values are identical both the dividend and the
    divisor of the slope are zero. *)
Lemma regression_degenerate (pts : list (Q * Q)) :
  identical_x pts ->
  numerator pts == 0 /\ denominator pts == 0
  /\ regression (sample_of pts) = {| fit_m := NaN; fit_b := NaN |}.
Proof.
  intros Hid.
  assert (Hnum : numerator pts == 0).
  { rewrite numerator_cross. apply cross_identical. exact Hid. }
  assert (Hden : denominator pts == 0).
  { rewrite denominator_cross. apply cross_identical. exact Hid. }
  split; [exact Hnum|split; [exact Hden|]].
  rewrite regression_sample. cbn [xdiv xsub xmul].
  apply Qzero_true in Hnum, Hden. rewrite Hden, Hnum. reflexivity.
Qed.

End Regression.

(** ** The estimator *)

Section Estimator.
Local Open Scope Q_scope.

(** C1. For every non-empty Sample whose x values are not all identical,
    [calculateRegression] returns the slope and the intercept of the
    closed-form least-squares formulas, and these satisfy the two normal
    equations of the Sample. *)
Theorem calculateRegression_ols (pts : list (Q * Q)) (st : State xnum) :
  distinct_x pts ->
  exists m b,
    fst (calculateRegression (sample_of pts) st)
    = {| fit_m := Fin m; fit_b := Fin b |}
    /\ m == ols_slope pts
    /\ b == ols_intercept pts
    /\ sumXY pts == m * sumXX pts + b * sumX pts
    /\ sumY pts == m * sumX pts + size pts * b.
Proof.
  intros Hd.
  destruct (regression_ols pts Hd) as (m & b & Hr & Hm & Hb & Hpos).
  pose proof (distinct_x_size pts Hd) as Hn.
  exists m, b. split; [exact Hr|]. split; [exact Hm|]. split; [exact Hb|].
  rewrite Hb. unfold ols_intercept. rewrite Hm. unfold ols_slope.
  split; field; split; lra.
Qed.

Lemma calculateRegression_ols_witness :
  exists m b,
    fst (calculateRegression (sample_of linear3) (initial tenths))
    = {| fit_m := Fin m; fit_b := Fin b |}
    /\ m == ols_slope linear3
    /\ b == ols_intercept linear3
    /\ sumXY linear3 == m * sumXX linear3 + b * sumX linear3
    /\ sumY linear3 == m * sumX linear3 + size linear3 * b.
Proof.
  apply (calculateRegression_ols linear3 (initial tenths)).
  exists (1, 3), (2, 5).
  split; [left; reflexivity|].
  split; [right; left; reflexivity|].
  intros E. vm_compute in E. discriminate E.
Defined.

(** C1, as the specification states it, fails of the estimator as it runs.
    The Sample [(4e7, 1), (4e7 + 1, 2), (4e7 + 2, 3)] has three different x
    values, all of which binary64 holds exactly, and lies on a line of
    slope 1, which is what the closed form gives; the estimator, rounding
    every operation to binary64, returns the slope 0.75 and the intercept
    -29999998.75. *)
Lemma calculateRegression_binary64_off_ols :
  distinct_x large3
  /\ Forall2 (fun (p : Point float) (q : Q * Q) =>
                xeq (value (px p)) (Fin (fst q))
                /\ xeq (value (py p)) (Fin (snd q)))
             (sample_of large3) large3
  /\ ols_slope large3 == 1
  /\ ols_intercept large3 == - (39999999)
  /\ fst (calculateRegression (sample_of large3) (initial lowest))
     = {| fit_m := 0.75%float; fit_b := (-29999998.75)%float |}
  /\ xeq (value 0.75%float) (Fin (3 # 4))
  /\ xeq (value (-29999998.75)%float) (Fin (- (119999995 # 4))).
Proof.
  split.
  { exists (40000000, 1), (40000001, 2).
    split; [left; reflexivity|].
    split; [right; left; reflexivity|].
    intros E. vm_compute in E. discriminate E. }
  split.
  { repeat constructor; vm_compute; reflexivity. }
  repeat split; vm_compute; reflexivity.
Qed.

(** C10. For every non-empty Sample whose x values are not all identical,
    the slope [m] and the intercept [b] that [calculateRegression] returns
    satisfy [sumY = m * sumX + n * b] in rational arithmetic: the fitted
    line passes through the point of the means. *)
Theorem calculateRegression_through_means (pts : list (Q * Q))
    (st : State xnum) :
  distinct_x pts ->
  exists m b,
    fst (calculateRegression (sample_of pts) st)
    = {| fit_m := Fin m; fit_b := Fin b |}
    /\ sumY pts == m * sumX pts + size pts * b
    /\ sumY pts / size pts == m * (sumX pts / size pts) + b.
Proof.
  intros Hd.
  destruct (regression_ols pts Hd) as (m & b & Hr & Hm & Hb & Hpos).
  pose proof (distinct_x_size pts Hd) as Hn.
  exists m, b. split; [exact Hr|].
  rewrite Hb. unfold ols_intercept. rewrite <- Hm.
  split; field; lra.
Qed.

Lemma calculateRegression_through_means_witness :
  exists m b,
    fst (calculateRegression (sample_of linear3) (initial tenths))
    = {| fit_m := Fin m; fit_b := Fin b |}
    /\ sumY linear3 == m * sumX linear3 + size linear3 * b
    /\ sumY linear3 / size linear3 == m * (sumX linear3 / size linear3) + b.
Proof.
  apply (calculateRegression_through_means linear3 (initial tenths)).
  exists (1, 3), (3, 7).
  split; [left; reflexivity|].
  split; [right; right; left; reflexivity|].
  intros E. vm_compute in E. discriminate E.
Defined.

(** C2. On the Sample [(1,3), (2,5), (3,7)] [calculateRegression] returns
    the slope 2 and the intercept 1, in exact arithmetic and, with exact
    equality, in binary64. *)
Theorem calculateRegression_linear3 (st : State xnum) (stf : State float) :
  (xeq (fit_m (fst (calculateRegression (sample_of linear3) st))) (Fin 2)
   /\ xeq (fit_b (fst (calculateRegression (sample_of linear3) st))) (Fin 1))
  /\ fst (calculateRegression (sample_of linear3) stf)
     = {| fit_m := 2%float; fit_b := 1%float |}.
Proof.
  split; [split|]; vm_compute; reflexivity.
Qed.

(** C5, as the code has it. The estimator has no guard on its divisor. For
    every Sample in which all x values are identical the divisor is zero in
    exact arithmetic: the estimator divides zero by zero, returns a Fit
    whose slope and intercept are both [NaN] and stores them as the slope
    and the intercept of the component. In binary64 the rounded divisor
    need not be zero: on three points at [x = 0.7] with the y values 1, 2
    and 4 (the float [0x1.6666666666666p-1] is the binary64 number nearest
    to 0.7) the estimator returns the finite slope 2 and the intercept
    [0x1.dddddddddddep-1], which is 0.93333333333333357. *)
Theorem calculateRegression_identical_x :
  (forall (pts : list (Q * Q)) (st : State xnum),
     identical_x pts ->
     denominator pts == 0
     /\ fst (calculateRegression (sample_of pts) st)
        = {| fit_m := NaN; fit_b := NaN |}
     /\ slope (snd (calculateRegression (sample_of pts) st)) = NaN
     /\ intercept (snd (calculateRegression (sample_of pts) st)) = NaN)
  /\ (identical_x sevenths
      /\ Forall (fun p : Point float => px p = 0x1.6666666666666p-1%float) (sample_of sevenths)
      /\ forall stf : State float,
           fst (calculateRegression (sample_of sevenths) stf)
           = {| fit_m := 2%float; fit_b := 0x1.dddddddddddep-1%float |}).
Proof.
  split.
  - intros pts st Hid.
    destruct (regression_degenerate pts Hid) as (_ & Hden & Hr).
    split; [exact Hden|].
    unfold calculateRegression. cbn [fst snd]. rewrite Hr.
    repeat split.
  - split; [|split].
    + intros p q [<-|[<-|[<-|[]]]] [<-|[<-|[<-|[]]]]; reflexivity.
    + repeat constructor.
    + intros stf. vm_compute. reflexivity.
Qed.

Lemma degenerate2_identical_x : identical_x degenerate2.
Proof.
  intros p q [<-|[<-|[]]] [<-|[<-|[]]]; reflexivity.
Qed.

Lemma calculateRegression_identical_x_witness :
  denominator degenerate2 == 0
  /\ fst (calculateRegression (sample_of degenerate2) (initial tenths))
     = {| fit_m := NaN; fit_b := NaN |}
  /\ slope (snd (calculateRegression (sample_of degenerate2) (initial tenths)))
     = NaN
  /\ intercept
       (snd (calculateRegression (sample_of degenerate2) (initial tenths)))
     = NaN.
Proof.
  apply (proj1 calculateRegression_identical_x degenerate2 (initial tenths)).
  intros p q [<-|[<-|[]]] [<-|[<-|[]]]; reflexivity.
Defined.

(** C5, as the specification states it, fails: on the Sample
    [(1,1), (1,3)] the estimator reports nothing. The divisor is zero, the
    division is carried out, and the Fit it returns has the slope [NaN], in
    exact arithmetic and in binary64. *)
Lemma calculateRegression_degenerate2_returns_nan :
  identical_x degenerate2
  /\ denominator degenerate2 == 0
  /\ fit_m (fst (calculateRegression (sample_of degenerate2) (initial tenths)))
     = xdiv (Fin (numerator degenerate2)) (Fin (denominator degenerate2))
  /\ fst (calculateRegression (sample_of degenerate2) (initial tenths))
     = {| fit_m := NaN; fit_b := NaN |}
  /\ fst (calculateRegression (sample_of degenerate2) (initial eighths))
     = {| fit_m := PrimFloat.nan; fit_b := PrimFloat.nan |}.
Proof.
  split; [exact degenerate2_identical_x|].
  repeat split; vm_compute; reflexivity.
Qed.

End Estimator.

(** ** The data generator *)

Section Generator.
Context {T : Type} {num : Number T}.

(** The callback of [Array.from] draws once: the point of index [i] is
    built from the draw at the cursor. *)
Lemma Array_from_indices_newPoint (k a : nat) (s : nat -> T) (c : nat) :
  Array_from_indices (seq a k) newPoint {| stream := s; cursor := c |}
  = (map (fun i => fst (newPoint i {| stream := s; cursor := c + (i - a) |}))
         (seq a k),
     {| stream := s; cursor := c + k |}).
Proof.
  revert a c. induction k as [|k IH]; intros a c.
  - cbn [seq Array_from_indices map]. rewrite Nat.add_0_r. reflexivity.
  - cbn [seq Array_from_indices map].
    unfold newPoint at 1, Math_random. cbn [stream cursor].
    rewrite IH. f_equal.
    + f_equal.
      * unfold newPoint, Math_random. cbn [stream cursor fst].
        rewrite Nat.sub_diag, Nat.add_0_r. reflexivity.
      * apply map_ext_in. intros i Hi. apply in_seq in Hi.
        do 3 f_equal. lia.
    + f_equal. lia.
Qed.

Lemma generateData_points (st : State T) :
  points (generateData st)
  = map (fun i => fst (newPoint i {| stream := stream (rand st);
                                     cursor := cursor (rand st) + i |}))
        (seq 0 20).
Proof.
  unfold generateData, Array_from.
  destruct (rand st) as [s c]. rewrite Array_from_indices_newPoint.
  cbn [points setPoints stream cursor].
  apply map_ext. intros i. rewrite Nat.sub_0_r. reflexivity.
Qed.

End Generator.

(** C3. Every call of [generateData] sets a Sample of exactly 20 points
    whose x values are, in order, the integers 1 to 20; so it is in exact
    arithmetic and in binary64. *)
Theorem generateData_twenty (st : State xnum) (stf : State float) :
  (length (points (generateData st)) = 20%nat
   /\ map px (points (generateData st))
      = map (fun k => of_Z (Z.of_nat k)) (seq 1 20))
  /\ (length (points (generateData stf)) = 20%nat
      /\ map px (points (generateData stf))
         = map (fun k => of_Z (Z.of_nat k)) (seq 1 20)).
Proof.
  rewrite !generateData_points.
  repeat split; vm_compute; reflexivity.
Qed.

(** ** The noise bound under rounding *)

Section Rounding.
Local Open Scope Q_scope.

(** A rounding operator: monotone, and exact on the halves of the integers
    from 0 to 60, which binary64 represents. The identity is one (exact
    arithmetic), rounding to nearest in binary64 is another. *)
Variable rnd : Q -> Q.
Hypothesis rnd_monotone : forall a b, a <= b -> rnd a <= rnd b.
Hypothesis rnd_halves :
  forall k : Z, (0 <= k <= 120)%Z -> rnd (inject_Z k / 2) == inject_Z k / 2.

Lemma rnd_proper (a b : Q) : a == b -> rnd a == rnd b.
Proof using rnd_monotone.
  intros E. apply Qle_antisym; apply rnd_monotone; rewrite E; apply Qle_refl.
Qed.

Lemma rnd_exact (k : Z) (a : Q) :
  (0 <= k <= 120)%Z -> a == inject_Z k / 2 -> rnd a == a.
Proof using rnd_monotone rnd_halves.
  intros Hk E. rewrite (rnd_proper a (inject_Z k / 2) E), E.
  apply rnd_halves. exact Hk.
Qed.

Lemma rnd_to (k : Z) (a b : Q) :
  (0 <= k <= 120)%Z -> a == b -> b == inject_Z k / 2 -> rnd a == b.
Proof using rnd_monotone rnd_halves.
  intros Hk E Eb. transitivity a; [|exact E].
  apply (rnd_exact k); [exact Hk|]. rewrite E. exact Eb.
Qed.

Lemma rnd_between (lo hi : Z) (l h a : Q) :
  (0 <= lo <= 120)%Z -> (0 <= hi <= 120)%Z ->
  l == inject_Z lo / 2 -> h == inject_Z hi / 2 ->
  l <= a <= h -> l <= rnd a <= h.
Proof using rnd_monotone rnd_halves.
  intros Hlo Hhi El Eh [Ha Hb]. split.
  - rewrite <- (rnd_exact lo l Hlo El). apply rnd_monotone. exact Ha.
  - rewrite <- (rnd_exact hi h Hhi Eh). apply rnd_monotone. exact Hb.
Qed.

(** The point of index [i] built from a draw [q] in [[0, 1)]. *)
Lemma newPoint_noise (i : nat) (s : nat -> xnum) (c : nat) (q : Q) :
  (i < 20)%nat -> s c = Fin q -> 0 <= q < 1 ->
  exists x y,
    fst (@newPoint xnum (rounded rnd) i {| stream := s; cursor := c |})
    = {| px := Fin x; py := Fin y |}
    /\ x == inject_Z (Z.of_nat i) + 1
    /\ Qabs (y - ((5 # 2) * x + 5)) <= 5 # 2.
Proof using rnd_monotone rnd_halves.
  intros Hi Hs Hq.
  unfold newPoint, Math_random. cbn [stream cursor fst]. rewrite Hs.
  unfold of_nat, of_Z. cbn [of_Q add sub mul rounded xadd xsub xmul xround].
  set (n := inject_Z (Z.of_nat i)).
  assert (Hn : n == inject_Z (2 * Z.of_nat i) / 2).
  { unfold n. rewrite inject_Z_mult. field. }
  assert (H1 : rnd (inject_Z 1) == 1) by (apply (rnd_exact 2); [lia|reflexivity]).
  assert (H5 : rnd (inject_Z 5) == 5) by (apply (rnd_exact 10); [lia|reflexivity]).
  assert (Hh : rnd (5 # 2) == 5 # 2) by (apply (rnd_exact 5); [lia|reflexivity]).
  assert (Hi' : rnd n == n) by (apply (rnd_exact (2 * Z.of_nat i)); [lia|exact Hn]).
  set (x := rnd (rnd n + rnd (inject_Z 1))).
  assert (Hx : x == n + 1).
  { unfold x. apply (rnd_to (2 * Z.of_nat i + 2)); [lia| |].
    - rewrite Hi', H1. reflexivity.
    - rewrite inject_Z_plus, inject_Z_mult. fold n. field. }
  set (a1 := rnd (rnd (5 # 2) * x)).
  assert (Ha1 : a1 == (5 # 2) * (n + 1)).
  { unfold a1. apply (rnd_to (5 * Z.of_nat i + 5)); [lia| |].
    - rewrite Hh, Hx. reflexivity.
    - rewrite inject_Z_plus, inject_Z_mult. fold n. field. }
  set (a2 := rnd (a1 + rnd (inject_Z 5))).
  assert (Ha2 : a2 == (5 # 2) * (n + 1) + 5).
  { unfold a2. apply (rnd_to (5 * Z.of_nat i + 15)); [lia| |].
    - rewrite Ha1, H5. reflexivity.
    - rewrite inject_Z_plus, inject_Z_mult. fold n. field. }
  set (r := rnd (q * rnd (inject_Z 5))).
  assert (Hr : 0 <= r <= 5).
  { apply (rnd_between 0 10); [lia|lia|reflexivity|reflexivity|].
    rewrite H5. lra. }
  set (a3 := rnd (a2 + r)).
  assert (Ha3 : a2 <= a3 <= a2 + 5).
  { apply (rnd_between (5 * Z.of_nat i + 15) (5 * Z.of_nat i + 25)); [lia|lia| | |lra].
    - rewrite Ha2, inject_Z_plus, inject_Z_mult. fold n. field.
    - rewrite Ha2, inject_Z_plus, inject_Z_mult. fold n. field. }
  set (y := rnd (a3 - rnd (5 # 2))).
  assert (Hy : a2 - (5 # 2) <= y <= a2 + (5 # 2)).
  { apply (rnd_between (5 * Z.of_nat i + 10) (5 * Z.of_nat i + 20)); [lia|lia| | |].
    - rewrite Ha2, inject_Z_plus, inject_Z_mult. fold n. field.
    - rewrite Ha2, inject_Z_plus, inject_Z_mult. fold n. field.
    - rewrite Hh. lra. }
  exists x, y. split; [reflexivity|]. split; [exact Hx|].
  apply Qabs_Qle_condition. lra.
Qed.

End Rounding.

(** C4. Every point [(x, y)] that [generateData] produces has
    [|y - (2.5 * x + 5)| <= 2.5], when [Math.random] draws from [[0, 1)].
    This holds in exact arithmetic and under every rounding of the
    intermediate results that is monotone and exact on the halves up to 60. *)
Theorem generateData_noise_bound (rnd : Q -> Q) (st : State xnum)
    (p : Point xnum) :
  (forall a b, a <= b -> rnd a <= rnd b)%Q ->
  (forall k : Z, (0 <= k <= 120)%Z ->
                 rnd (inject_Z k / 2) == inject_Z k / 2)%Q ->
  unit_interval (rand st) ->
  In p (points (@generateData xnum (rounded rnd) st)) ->
  exists x y,
    px p = Fin x /\ py p = Fin y
    /\ (Qabs (y - ((5 # 2) * x + 5)) <= 5 # 2)%Q.
Proof.
  intros Hmono Hhalves Hunit Hin.
  rewrite generateData_points in Hin. apply in_map_iff in Hin.
  destruct Hin as (i & <- & Hi). apply in_seq in Hi.
  destruct (Hunit (cursor (rand st) + i)%nat) as (q & Hq & Hrange).
  destruct (newPoint_noise rnd Hmono Hhalves i (stream (rand st))
              (cursor (rand st) + i) q) as (x & y & -> & _ & Hb);
    [lia|exact Hq|exact Hrange|].
  exists x, y. repeat split. exact Hb.
Qed.

Lemma generateData_noise_bound_witness :
  exists x y,
    px (nth 0 (points (@generateData xnum (rounded (fun q => q))
                         (initial halves))) {| px := NaN; py := NaN |})
    = Fin x
    /\ py (nth 0 (points (@generateData xnum (rounded (fun q => q))
                            (initial halves))) {| px := NaN; py := NaN |})
       = Fin y
    /\ (Qabs (y - ((5 # 2) * x + 5)) <= 5 # 2)%Q.
Proof.
  apply (generateData_noise_bound (fun q => q) (initial halves)).
  - intros a b Hab. exact Hab.
  - intros k Hk. reflexivity.
  - intros k. exists (1 # 2)%Q. split; [reflexivity|lra].
  - vm_compute. left. reflexivity.
Defined.

(** ** The exporter *)

Section Exporter.
Context {T : Type} {num : Number T}.

(** C7, as the code has it. [downloadPNG] returns nothing in any case. When
    the svg element is absent, or when the capture is rejected, it leaves
    the whole state as it was: no file and no notice. When the element is
    there and the capture succeeds, also on a scene with nothing drawn, it
    hands [chart.png] to the browser. *)
Theorem downloadPNG_outcomes (toPng : Settled) (st : State T) :
  (mounted st = false \/ toPng = Rejected -> downloadPNG toPng st = st)
  /\ (forall dataUrl,
        mounted st = true -> toPng = Resolved dataUrl ->
        downloadPNG toPng st
        = with_downloads
            (downloads st ++ [{| download := "chart.png"; href := dataUrl |}])
            st).
Proof.
  unfold downloadPNG. split.
  - intros [Hm| ->].
    + rewrite Hm. reflexivity.
    + destruct (mounted st); reflexivity.
  - intros dataUrl Hm ->. rewrite Hm. reflexivity.
Qed.

End Exporter.

Lemma downloadPNG_outcomes_witness :
  downloadPNG Rejected (initial tenths) = initial tenths.
Proof.
  apply (proj1 (downloadPNG_outcomes Rejected (initial tenths))).
  right. reflexivity.
Defined.

(** C7, as the specification states it, fails: on the scene that was never
    rendered, and on the mounted scene with nothing drawn when the capture
    is rejected, the export changes nothing at all; the caller gets no
    failure result and no file is produced. *)
Lemma downloadPNG_silent :
  mounted (initial tenths) = false
  /\ scene (initial tenths) = None
  /\ downloadPNG (Resolved "data:image/png;base64,") (initial tenths)
     = initial tenths
  /\ downloadPNG Rejected (initial tenths) = initial tenths
  /\ scene (with_mounted true (initial tenths)) = None
  /\ downloadPNG Rejected (with_mounted true (initial tenths))
     = with_mounted true (initial tenths).
Proof. repeat split. Qed.

(** ** The tooltip *)

Section Strings.
Local Open Scope string_scope.

Lemma string_length_append (a b : string) :
  String.length (a ++ b) = (String.length a + String.length b)%nat.
Proof. induction a as [|c a IH]; simpl; [reflexivity|rewrite IH; reflexivity]. Qed.

Lemma zeros_length (k : nat) : String.length (zeros k) = k.
Proof. induction k as [|k IH]; simpl; [reflexivity|rewrite IH; reflexivity]. Qed.

Lemma substring_all (s : string) : substring 0 (String.length s) s = s.
Proof. induction s as [|c s IH]; simpl; [reflexivity|rewrite IH; reflexivity]. Qed.

(** A string is its first [n] characters followed by the rest. *)
Lemma substring_split (s : string) (n : nat) :
  substring 0 n s ++ substring n (String.length s - n) s = s.
Proof.
  revert n. induction s as [|c s IH]; intros [|n]; simpl; try reflexivity.
  - rewrite substring_all. reflexivity.
  - change (String c (substring 0 n s ++ substring n (String.length s - n) s)
            = String c s).
    rewrite IH. reflexivity.
Qed.

Lemma substring_length (s : string) (n k : nat) :
  (n + k <= String.length s)%nat -> String.length (substring n k s) = k.
Proof.
  revert n k. induction s as [|c s IH]; intros n k Hk; simpl in Hk.
  - assert (n = 0%nat) by lia. assert (k = 0%nat) by lia. subst. reflexivity.
  - destruct n as [|n].
    + destruct k as [|k]; simpl; [reflexivity|].
      rewrite (IH 0%nat k); [reflexivity|lia].
    + simpl. apply IH. lia.
Qed.

Lemma padded3_length (m : string) : (3 <= String.length (padded3 m))%nat.
Proof.
  unfold padded3. destruct (Nat.leb_spec (String.length m) 2) as [Hle|Hgt].
  - rewrite string_length_append, zeros_length. lia.
  - lia.
Qed.

End Strings.

Section Tooltip.
Context {T : Type} {num : Number T}.

(** [toFixed(2)] of a finite number below [10^21] in magnitude prints two
    decimals. *)
Lemma toFixed_two_decimals (v : T) (q : Q) :
  value v = Fin q -> (Qabs q < inject_Z (10 ^ 21))%Q ->
  two_decimals q (toFixed v 2).
Proof.
  intros Hv Hq. unfold toFixed. rewrite Hv.
  assert (Hbig : Qle_bool (inject_Z (10 ^ 21)) (Qabs q) = false).
  { destruct (Qle_bool (inject_Z (10 ^ 21)) (Qabs q)) eqn:E; [|reflexivity].
    apply Qle_bool_iff in E. exfalso. apply (Qlt_not_le _ _ Hq). exact E. }
  rewrite Hbig.
  change (Qfloor (Qabs q * inject_Z (10 ^ Z.of_nat 2) + (1 # 2)))
    with (hundredths q).
  set (m := decimal (hundredths q)).
  change (if (String.length m <=? 2)%nat
          then (zeros (2 + 1 - String.length m) ++ m)%string else m)
    with (padded3 m).
  pose proof (padded3_length m) as Hlen.
  set (p := padded3 m) in *.
  exists (substring 0 (String.length p - 2) p),
         (substring (String.length p - 2) 2 p).
  split; [reflexivity|]. split.
  - apply substring_length. lia.
  - pose proof (substring_split p (String.length p - 2)) as Hs.
    replace (String.length p - (String.length p - 2))%nat with 2%nat in Hs
      by lia.
    exact Hs.
Qed.

(** Hovering a circle whose point has finite coordinates below [10^21]. *)
Lemma hover_finite (st : State T) (i : nat) (c : Circle T)
    (event : MouseEvent T) (qx qy : Q) :
  circleAt i st = Some c ->
  value (px (bound c)) = Fin qx -> (Qabs qx < inject_Z (10 ^ 21))%Q ->
  value (py (bound c)) = Fin qy -> (Qabs qy < inject_Z (10 ^ 21))%Q ->
  hover_outcome st i c event qx qy.
Proof.
  intros Hc Hx Hbx Hy Hby.
  exists (mouseenter event (bound c) st).
  exists (mouseleave (mouseenter event (bound c) st)).
  exists {| top := add (clientY event) (of_Z 10);
            left := add (clientX event) (of_Z 10);
            shownX := Some (toFixed (px (bound c)) 2);
            shownY := Some (toFixed (py (bound c)) 2) |}.
  split; [cbn [react]; rewrite Hc; reflexivity|].
  split; [reflexivity|]. split; [reflexivity|].
  split; [reflexivity|]. split; [reflexivity|].
  split; [exact (toFixed_two_decimals _ _ Hx Hbx)|].
  split; [exact (toFixed_two_decimals _ _ Hy Hby)|].
  split.
  - cbn [react].
    replace (circleAt i (mouseenter event (bound c) st)) with (Some c)
      by (rewrite <- Hc; reflexivity).
    reflexivity.
  - repeat split.
Qed.

End Tooltip.

(** ** The scene and the pending timers *)

Section SceneInvariant.
Context {T : Type} {num : Number T}.

Lemma bound_circlesOf (S : list (Point T)) : map bound (circlesOf S) = S.
Proof.
  unfold circlesOf. rewrite map_map. cbn [bound]. apply map_id.
Qed.

(** [coherent] looks at the slope, the intercept, the scene, the store and
    the timers only. *)
Lemma coherent_frame (st st' : State T) :
  slope st' = slope st -> intercept st' = intercept st ->
  scene st' = scene st -> store st' = store st -> timers st' = timers st ->
  coherent st -> coherent st'.
Proof.
  intros Hs Hi Hsc Hst Ht [Ha Hd]. split.
  - intros tm Hin. rewrite Hst. apply Ha. rewrite <- Ht. exact Hin.
  - intros sc Hsc'. rewrite Hsc in Hsc'.
    destruct (Hd sc Hsc') as (S & Hdisp & Hcur). exists S. split.
    + unfold displays in *. rewrite Hs, Hi, Hst. exact Hdisp.
    + intros tm Hin. apply Hcur. rewrite <- Ht. exact Hin.
Qed.

Lemma earliest_In (ts : list (Timer T)) (tm : Timer T) (rest : list (Timer T)) :
  earliest ts = Some (tm, rest) ->
  In tm ts /\ (forall t, In t rest -> In t ts).
Proof.
  revert tm rest. induction ts as [|a ts IH]; intros tm rest He.
  - discriminate He.
  - cbn [earliest] in He. destruct (earliest ts) as [[tm' rest']|].
    + destruct (IH tm' rest' eq_refl) as [Hin Hsub].
      destruct (due tm' <? due a)%nat; injection He as <- <-.
      * split; [right; exact Hin|].
        intros t [<-|Ht]; [left; reflexivity|right; apply Hsub; exact Ht].
      * split; [left; reflexivity|]. intros t Ht. right. exact Ht.
    + injection He as <- <-. split; [left; reflexivity|].
      intros t Ht. right. exact Ht.
Qed.

(** What the drawing effect does on a non-empty Sample. *)
Lemma drawChart_nonempty (st st' : State T) :
  points st <> [] -> drawChart st = Some st' ->
  exists lp,
    linePoints (points st) (regression (points st)) = Some lp
    /\ st' =
       let p := fresh (dom (store st)) in
       with_timers
         (timers st ++ schedule (clock st) p lp (xScaleOf (points st))
                                (yScaleOf (points st)))
         (with_document
            (Some {| xAxis := xScaleOf (points st);
                     yAxis := yScaleOf (points st);
                     circles := circlesOf (points st);
                     path := p |})
            (<[p := {| datum := []; d_attr := None |}]> (store st))
            (setIntercept (fit_b (regression (points st)))
               (setSlope (fit_m (regression (points st))) st))).
Proof.
  intros Hne Hd. unfold drawChart in Hd.
  destruct (points st) as [|d ds] eqn:Hp; [contradiction|].
  unfold calculateRegression in Hd.
  destruct (linePoints (d :: ds) (regression (d :: ds))) as [lp|] eqn:Hl;
    [|discriminate Hd].
  exists lp. split; [reflexivity|].
  injection Hd as <-. cbn [store setIntercept setSlope timers clock].
  reflexivity.
Qed.

Lemma drawChart_empty (st : State T) : points st = [] -> drawChart st = Some st.
Proof. intros Hp. unfold drawChart. rewrite Hp. reflexivity. Qed.

Lemma schedule_In (now : nat) (p : loc) (lp : list (Point T))
    (xs ys : Scale T) (tm : Timer T) :
  In tm (schedule now p lp xs ys) ->
  tm_path tm = p /\ tm_linePoints tm = lp /\ tm_xScale tm = xs
  /\ tm_yScale tm = ys /\ (tm_i tm < length lp)%nat
  /\ due tm = (now + tm_i tm * 50)%nat.
Proof.
  unfold schedule. intros Hin. apply in_map_iff in Hin.
  destruct Hin as (i & <- & Hi). apply in_seq in Hi. cbn.
  repeat split. lia.
Qed.

(** The drawing effect keeps the timers it finds, which refer to other
    paths than the new one, and establishes the display of the Sample. *)
Lemma drawChart_coherent (st st' : State T) :
  timers_allocated st -> points st <> [] -> drawChart st = Some st' ->
  coherent st'
  /\ points st' = points st /\ dirty st' = dirty st
  /\ exists sc, scene st' = Some sc /\ circles sc = circlesOf (points st).
Proof.
  intros Ha Hne Hd.
  destruct (drawChart_nonempty st st' Hne Hd) as (lp & Hl & ->).
  set (p := fresh (dom (store st))).
  assert (Hfresh : store st !! p = None).
  { apply not_elem_of_dom. apply is_fresh. }
  cbn zeta. split; [|split; [reflexivity|split; [reflexivity|]]].
  - split.
    + intros tm Hin. cbn [timers with_timers] in Hin.
      cbn [store with_timers with_document].
      apply in_app_or in Hin. destruct Hin as [Hold|Hnew].
      * apply lookup_insert_is_Some'. right. apply Ha. exact Hold.
      * apply schedule_In in Hnew. destruct Hnew as (-> & _).
        rewrite lookup_insert_eq. eexists. reflexivity.
    + intros sc Hsc. cbn [scene with_timers with_document] in Hsc.
      injection Hsc as <-. exists (points st). split.
      * unfold displays. cbn [circles xAxis yAxis path].
        repeat split; try reflexivity; [exact Hne|].
        exists lp, {| datum := []; d_attr := None |}, 0%nat.
        split; [exact Hl|]. split; [apply lookup_insert_eq|].
        split; reflexivity.
      * intros tm Hin Hpath. cbn [timers with_timers] in Hin.
        cbn [path] in Hpath. apply in_app_or in Hin.
        destruct Hin as [Hold|Hnew].
        -- exfalso. destruct (Ha tm Hold) as [po Hpo].
           rewrite Hpath in Hpo. fold p in Hpo. rewrite Hfresh in Hpo.
           discriminate Hpo.
        -- apply schedule_In in Hnew.
           destruct Hnew as (_ & -> & -> & -> & _).
           repeat split. exact Hl.
  - eexists. split; reflexivity.
Qed.

(** A timer callback writes a longer prefix into the path of the scene when
    it belongs to the scene, and leaves that path alone when it does not. *)
Lemma fireTimer_coherent (st st' : State T) :
  coherent st -> fireTimer st = Some st' ->
  coherent st'
  /\ points st' = points st /\ dirty st' = dirty st /\ scene st' = scene st.
Proof.
  intros [Ha Hd] Hf. unfold fireTimer in Hf.
  destruct (earliest (timers st)) as [[tm rest]|] eqn:He; [|discriminate Hf].
  destruct (due tm <=? clock st)%nat; [|discriminate Hf].
  injection Hf as <-.
  destruct (earliest_In _ _ _ He) as [Htm Hrest].
  split; [|repeat split]. split.
  - intros t Hin. cbn [timers store segmentCallback with_document with_timers] in *.
    apply lookup_insert_is_Some'. right. apply Ha. apply Hrest. exact Hin.
  - intros sc Hsc. cbn [scene segmentCallback with_document with_timers] in Hsc.
    destruct (Hd sc Hsc) as (S & Hdisp & Hcur). exists S. split.
    + destruct Hdisp as (H1 & H2 & H3 & H4 & H5 & H6 & lp & po & k & Hl & Hpo & Hk & Hattr).
      unfold displays. repeat (split; [assumption|]).
      cbn [store segmentCallback with_document with_timers scene].
      destruct (decide (tm_path tm = path sc)) as [Heq|Hneq].
      * destruct (Hcur tm Htm Heq) as (Hlp & Hxs & Hys).
        rewrite Hl in Hlp. injection Hlp as Hlp.
        exists lp, {| datum := firstn (tm_i tm + 1) (tm_linePoints tm);
                     d_attr := lineGenerator (tm_xScale tm) (tm_yScale tm)
                                 (firstn (tm_i tm + 1) (tm_linePoints tm)) |},
               (tm_i tm + 1)%nat.
        split; [exact Hl|]. split; [rewrite Heq; apply lookup_insert_eq|].
        cbn [datum d_attr]. rewrite <- Hlp, Hxs, Hys.
        split; reflexivity.
      * exists lp, po, k. split; [exact Hl|].
        split; [rewrite lookup_insert_ne by exact Hneq; exact Hpo|].
        split; assumption.
    + intros t Hin. cbn [timers segmentCallback with_document with_timers] in Hin.
      apply Hcur. apply Hrest. exact Hin.
Qed.

Lemma generateData_frame (st : State T) :
  slope (generateData st) = slope st
  /\ intercept (generateData st) = intercept st
  /\ scene (generateData st) = scene st
  /\ store (generateData st) = store st
  /\ timers (generateData st) = timers st
  /\ dirty (generateData st) = true.
Proof.
  unfold generateData.
  destruct (Array_from 20 newPoint (rand st)) as [newPoints g].
  repeat split.
Qed.

(** Every event keeps the scene coherent and, once the effect has run, up
    to date. *)
Lemma react_invariant (ev : Event T) (st st' : State T) :
  coherent st /\ up_to_date st -> react ev st = Some st' ->
  coherent st' /\ up_to_date st'.
Proof.
  intros [Hc Hu] Hr. destruct ev; cbn [react] in Hr.
  - (* Mount *)
    destruct (mounted st); [injection Hr as <-; split; assumption|].
    destruct (drawChart (with_mounted true st)) as [st1|] eqn:Hd; [|discriminate Hr].
    apply Some_eq in Hr. subst st'.
    destruct (generateData_frame st1) as (Hs & Hi & Hsc & Hst & Ht & Hdirty).
    split.
    + apply (coherent_frame st1); try assumption.
      destruct (points st) as [|d ds] eqn:Hp.
      * rewrite drawChart_empty in Hd by exact Hp. injection Hd as <-.
        apply (coherent_frame st); try reflexivity. exact Hc.
      * apply (drawChart_coherent (with_mounted true st) st1); try exact Hd.
        -- apply Hc.
        -- cbn [points with_mounted]. rewrite Hp. discriminate.
    + intros Hcontra. rewrite Hdirty in Hcontra. discriminate Hcontra.
  - (* ClickGenerate *)
    destruct (mounted st); apply Some_eq in Hr; subst st'; [|split; assumption].
    destruct (generateData_frame st) as (Hs & Hi & Hsc & Hst & Ht & Hdirty).
    split.
    + apply (coherent_frame st); assumption.
    + intros Hcontra. rewrite Hdirty in Hcontra. discriminate Hcontra.
  - (* FlushEffect *)
    destruct (mounted st && dirty st); [|injection Hr as <-; split; assumption].
    destruct (points st) as [|d ds] eqn:Hp.
    + rewrite drawChart_empty in Hr by exact Hp. injection Hr as <-. split.
      * apply (coherent_frame st); try reflexivity. exact Hc.
      * intros _ Hne. cbn [points clean] in Hne. rewrite Hp in Hne.
        contradiction.
    + destruct (drawChart_coherent (clean st) st') as (Hc' & Hpts & _ & sc & Hsc & Hcs);
        try exact Hr.
      * apply Hc.
      * cbn [points clean]. rewrite Hp. discriminate.
      * split; [exact Hc'|]. intros _ _. exists sc. split; [exact Hsc|].
        rewrite Hcs, Hpts. apply bound_circlesOf.
  - (* Elapse *)
    injection Hr as <-. split.
    + apply (coherent_frame st); try reflexivity. exact Hc.
    + exact Hu.
  - (* FireTimer *)
    destruct (fireTimer st) as [st1|] eqn:Hf; injection Hr as <-;
      [|split; assumption].
    destruct (fireTimer_coherent st st1 Hc Hf) as (Hc' & Hpts & Hdirty & Hsc).
    split; [exact Hc'|]. unfold up_to_date. rewrite Hpts, Hdirty, Hsc. exact Hu.
  - (* MouseEnter *)
    destruct (circleAt i st); injection Hr as <-; split; assumption.
  - (* MouseMove *)
    destruct (circleAt i st); injection Hr as <-; split; assumption.
  - (* MouseLeave *)
    destruct (circleAt i st); injection Hr as <-; split; assumption.
  - (* ClickDownload *)
    injection Hr as <-. unfold downloadPNG.
    destruct (mounted st); [|split; assumption].
    destruct toPng; split; assumption.
Qed.

Lemma initial_invariant (g : Rand T) :
  coherent (initial g) /\ up_to_date (initial g).
Proof.
  split; [split|].
  - intros tm [].
  - intros sc Hsc. discriminate Hsc.
  - intros _ Hne. contradiction.
Qed.

Lemma run_invariant (evs : list (Event T)) (st st' : State T) :
  coherent st /\ up_to_date st -> run evs st = Some st' ->
  coherent st' /\ up_to_date st'.
Proof.
  revert st. induction evs as [|ev evs IH]; intros st Hinv Hrun.
  - injection Hrun as <-. exact Hinv.
  - cbn [run] in Hrun. destruct (react ev st) as [st1|] eqn:Hr; [|discriminate Hrun].
    apply (IH st1); [|exact Hrun]. apply (react_invariant ev st); assumption.
Qed.

(** A circle of a coherent scene is bound to the point of the same index in
    the Sample the scene displays. *)
Lemma circle_bound (st : State T) (i : nat) (c : Circle T) :
  coherent st -> circleAt i st = Some c ->
  exists sc S,
    scene st = Some sc /\ displays st sc S /\ nth_error S i = Some (bound c).
Proof.
  intros [_ Hd] Hc. unfold circleAt in Hc.
  destruct (scene st) as [sc|] eqn:Hs; [|discriminate Hc].
  destruct (Hd sc eq_refl) as (S & Hdisp & _).
  exists sc, S. split; [reflexivity|]. split; [exact Hdisp|].
  destruct Hdisp as (_ & Hcs & _). rewrite Hcs in Hc. unfold circlesOf in Hc.
  rewrite nth_error_map in Hc.
  destruct (nth_error S i) as [d|]; [|discriminate Hc].
  cbn [option_map] in Hc. apply Some_eq in Hc. subst c. reflexivity.
Qed.


End SceneInvariant.


(** ** The samples of the line *)

Section LineSamples.
Local Open Scope Q_scope.







End LineSamples.

(** ** The points that are rendered *)

Section Rendered.
Local Open Scope Q_scope.

Lemma generateData_rand {T : Type} {num : Number T} (st : State T) :
  stream (rand (generateData st)) = stream (rand st).
Proof.
  unfold generateData, Array_from. destruct (rand st) as [s c].
  rewrite Array_from_indices_newPoint. reflexivity.
Qed.

(** In exact arithmetic a generated point lies within [[0, 60]] on both
    axes. *)
Lemma newPoint_small (i : nat) (s : nat -> xnum) (c : nat) (q : Q) :
  (i < 20)%nat -> s c = Fin q -> 0 <= q < 1 ->
  small (fst (newPoint i {| stream := s; cursor := c |})).
Proof.
  intros Hi Hs Hq. unfold newPoint, Math_random. cbn [stream cursor fst].
  rewrite Hs. unfold of_nat, of_Z. cbn [of_Q add sub mul exact xadd xsub xmul].
  set (n := inject_Z (Z.of_nat i)).
  assert (Hn : 0 <= n <= 19).
  { unfold n. change 0 with (inject_Z 0). change 19 with (inject_Z 19).
    rewrite <- !Zle_Qle. lia. }
  eexists. eexists. split; [reflexivity|].
  change (inject_Z (10 ^ 21)) with (inject_Z 1000000000000000000000).
  change (inject_Z 1) with 1. change (inject_Z 5) with 5.
  split; apply Qabs_Qlt_condition.
  - change (inject_Z 1000000000000000000000) with (1000000000000000000000 # 1).
    split; lra.
  - change (inject_Z 1000000000000000000000) with (1000000000000000000000 # 1).
    assert (0 <= q * 5 <= 5) by lra. split; lra.
Qed.

Lemma generateData_small (st : State xnum) :
  unit_interval (rand st) ->
  forall p, In p (points (generateData st)) -> small p.
Proof.
  intros Hunit p Hin. rewrite generateData_points in Hin.
  apply in_map_iff in Hin. destruct Hin as (i & <- & Hi). apply in_seq in Hi.
  destruct (Hunit (cursor (rand st) + i)%nat) as (q & Hq & Hrange).
  apply (newPoint_small i _ _ q); [lia|exact Hq|exact Hrange].
Qed.

Lemma generateData_generated (st : State xnum) :
  generated st -> generated (generateData st).
Proof.
  intros (Hunit & Hp & Hc).
  destruct (generateData_frame st) as (_ & _ & Hsc & _).
  split; [|split].
  - intros k. rewrite generateData_rand. apply Hunit.
  - apply generateData_small. exact Hunit.
  - intros sc c Hs. rewrite Hsc in Hs. apply Hc. exact Hs.
Qed.

Lemma drawChart_generated (st st' : State xnum) :
  generated st -> drawChart st = Some st' -> generated st'.
Proof.
  intros (Hunit & Hp & Hc) Hd.
  assert (Hcase : points st = [] \/ points st <> []).
  { destruct (points st); [left; reflexivity|right; discriminate]. }
  destruct Hcase as [Hpts|Hpts].
  - rewrite drawChart_empty in Hd by exact Hpts. apply Some_eq in Hd.
    subst st'. split; [exact Hunit|split; [exact Hp|exact Hc]].
  - destruct (drawChart_nonempty st st') as (lp & _ & ->);
      [exact Hpts|exact Hd|].
    cbn zeta. split; [exact Hunit|split; [exact Hp|]].
    intros sc c Hs Hin. cbn [scene with_timers with_document] in Hs.
    apply Some_eq in Hs. subst sc. cbn [circles] in Hin.
    unfold circlesOf in Hin. apply in_map_iff in Hin.
    destruct Hin as (p & <- & Hin). cbn [bound]. apply Hp. exact Hin.
Qed.

Lemma react_generated (ev : Event xnum) (st st' : State xnum) :
  generated st -> react ev st = Some st' -> generated st'.
Proof.
  intros Hg Hr. destruct ev; cbn [react] in Hr.
  - destruct (mounted st); [returned Hr st'; exact Hg|].
    destruct (drawChart (with_mounted true st)) as [st1|] eqn:Hd;
      [|discriminate Hr].
    returned Hr st'. apply generateData_generated.
    apply (drawChart_generated (with_mounted true st)); [exact Hg|exact Hd].
  - destruct (mounted st); returned Hr st';
      [apply generateData_generated|]; exact Hg.
  - destruct (mounted st && dirty st);
      [|returned Hr st'; exact Hg].
    apply (drawChart_generated (clean st)); [exact Hg|exact Hr].
  - returned Hr st'. exact Hg.
  - unfold fireTimer in Hr.
    destruct (earliest (timers st)) as [[tm rest]|];
      [|returned Hr st'; exact Hg].
    destruct (due tm <=? clock st)%nat; returned Hr st'; exact Hg.
  - destruct (circleAt i st); returned Hr st'; exact Hg.
  - destruct (circleAt i st); returned Hr st'; exact Hg.
  - destruct (circleAt i st); returned Hr st'; exact Hg.
  - returned Hr st'. unfold downloadPNG.
    destruct (mounted st); [destruct toPng|]; exact Hg.
Qed.

Lemma run_generated (evs : list (Event xnum)) (st st' : State xnum) :
  generated st -> run evs st = Some st' -> generated st'.
Proof.
  revert st. induction evs as [|ev evs IH]; intros st Hg Hrun.
  - apply Some_eq in Hrun. subst st'. exact Hg.
  - cbn [run] in Hrun.
    destruct (react ev st) as [st1|] eqn:Hr; [|discriminate Hrun].
    apply (IH st1); [|exact Hrun]. apply (react_generated ev st); assumption.
Qed.

(** Every circle the component ever shows is bound to a point with finite
    coordinates below [10^21]. *)
Lemma rendered_small (g : Rand xnum) (evs : list (Event xnum))
    (st : State xnum) (i : nat) (c : Circle xnum) :
  unit_interval g -> run evs (initial g) = Some st ->
  circleAt i st = Some c -> small (bound c).
Proof.
  intros Hunit Hrun Hc.
  assert (Hg : generated (initial g)).
  { split; [exact Hunit|split].
    - intros p [].
    - intros sc c' Hs. discriminate Hs. }
  destruct (run_generated evs _ _ Hg Hrun) as (_ & _ & Hcs).
  unfold circleAt in Hc. destruct (scene st) as [sc|] eqn:Hs; [|discriminate Hc].
  apply (Hcs sc c eq_refl). apply nth_error_In with i. exact Hc.
Qed.

End Rendered.

(** C8. Entering a circle sets the tooltip to visible with the coordinates
    of the point bound to that circle, which the overlay prints with two
    decimals; leaving it sets the tooltip to hidden with no coordinates, and
    the overlay is gone. This holds in every number model for a point with
    finite coordinates below [10^21] in magnitude, and, in exact arithmetic,
    for every circle of every scene the component draws from generated
    data, where the point bound to the [i]-th circle is the [i]-th point of
    the Sample on display. *)
Theorem tooltip_follows_hover :
  (forall (T : Type) (num : Number T) (st : State T) (i : nat) (c : Circle T)
          (event : MouseEvent T) (qx qy : Q),
     circleAt i st = Some c ->
     value (px (bound c)) = Fin qx -> (Qabs qx < inject_Z (10 ^ 21))%Q ->
     value (py (bound c)) = Fin qy -> (Qabs qy < inject_Z (10 ^ 21))%Q ->
     hover_outcome st i c event qx qy)
  /\ (forall (g : Rand xnum) (evs : list (Event xnum)) (st : State xnum)
             (i : nat) (c : Circle xnum) (event : MouseEvent xnum),
        unit_interval g -> run evs (initial g) = Some st ->
        circleAt i st = Some c ->
        exists sc S qx qy,
          scene st = Some sc /\ displays st sc S
          /\ nth_error S i = Some (bound c)
          /\ hover_outcome st i c event qx qy).
Proof.
  split.
  - intros T num st i c event qx qy. apply hover_finite.
  - intros g evs st i c event Hunit Hrun Hc.
    destruct (rendered_small g evs st i c Hunit Hrun Hc)
      as (x & y & Hb & Hx & Hy).
    destruct (run_invariant evs (initial g) st (initial_invariant g) Hrun)
      as [Hcoh _].
    destruct (circle_bound st i c Hcoh Hc) as (sc & S & Hs & Hdisp & Hn).
    exists sc, S, x, y. split; [exact Hs|]. split; [exact Hdisp|].
    split; [exact Hn|].
    apply hover_finite; try assumption; rewrite Hb; reflexivity.
Qed.

Lemma tooltip_follows_hover_witness :
  exists sc S qx qy,
    scene (after two_segments tenths) = Some sc
    /\ displays (after two_segments tenths) sc S
    /\ nth_error S 0 = Some (bound first_circle)
    /\ hover_outcome (after two_segments tenths) 0 first_circle pointer qx qy.
Proof.
  apply (proj2 tooltip_follows_hover tenths two_segments).
  - intros k. exists (Z.of_nat (k mod 7) # 10)%Q. split; [reflexivity|].
    assert (Hk : (k mod 7 < 7)%nat) by (apply Nat.mod_upper_bound; lia).
    unfold Qle, Qlt. cbn [Qnum Qden]. lia.
  - vm_compute. reflexivity.
  - vm_compute. reflexivity.
Defined.

(** The noise bound of C4 on the binary64 numbers themselves, at the two
    ends of the range of [Math.random]: with the least draw and with the
    greatest draw all twenty points keep the bound. *)
Example generateData_binary64_extremes :
  forallb within_noise (points (generateData (initial lowest))) = true
  /\ forallb within_noise (points (generateData (initial highest))) = true.
Proof. split; vm_compute; reflexivity. Qed.

(** * Further properties *)

Import Coverage.

(** ** The estimator as a least-squares fit *)

Section LeastSquares.
Local Open Scope Q_scope.

Lemma sse_expand (m b : Q) (pts : list (Q * Q)) :
  sse m b pts
  == sumYY pts - 2 * m * sumXY pts - 2 * b * sumY pts
     + m * m * sumXX pts + 2 * m * b * sumX pts + size pts * b * b.
Proof.
  induction pts as [|p pts IH].
  - unfold sse, sumYY, sumXY, sumY, sumXX, sumX, size. simpl. ring.
  - rewrite size_cons. unfold sse, sumYY, sumXY, sumY, sumXX, sumX in *.
    cbn [map Qsum fold_right] in *.
    fold (Qsum (map (fun p => (snd p - (m * fst p + b)) * (snd p - (m * fst p + b))) pts)).
    fold (Qsum (map (fun p => snd p * snd p) pts)).
    fold (Qsum (map (fun p => fst p * snd p) pts)).
    fold (Qsum (map snd pts)). fold (Qsum (map fst pts)).
    fold (Qsum (map (fun p => fst p * fst p) pts)).
    rewrite IH. ring.
Qed.

Lemma sse_nonneg (m b : Q) (pts : list (Q * Q)) : 0 <= sse m b pts.
Proof.
  unfold sse. induction pts as [|p pts IH]; cbn [map Qsum fold_right].
  - apply Qle_refl.
  - fold (Qsum (map (fun p => (snd p - (m * fst p + b)) * (snd p - (m * fst p + b))) pts)).
    pose proof (Qsquare_nonneg (snd p - (m * fst p + b))). lra.
Qed.

(** The squared residuals of a line with the data on the x axis. *)
Lemma line_squares (a c : Q) (pts : list (Q * Q)) :
  0 <= a * a * sumXX pts + 2 * a * c * sumX pts + size pts * c * c.
Proof.
  pose proof (sse_nonneg (- a) (- c) (map (fun p => (fst p, 0)) pts)) as H.
  rewrite sse_expand in H.
  unfold sumYY, sumXY, sumY, sumXX, sumX, size in *.
  rewrite !map_map, length_map in H. cbn [fst snd] in H.
  assert (Z1 : Qsum (map (fun _ : Q * Q => 0 * 0) pts) == 0)
    by (apply Qsum_zero_terms; intros; ring).
  assert (Z2 : Qsum (map (fun x : Q * Q => fst x * 0) pts) == 0)
    by (apply Qsum_zero_terms; intros; ring).
  assert (Z3 : Qsum (map (fun _ : Q * Q => 0) pts) == 0)
    by (apply Qsum_zero_terms; intros; ring).
  rewrite Z1, Z2, Z3 in H.
  change (map (fun x : Q * Q => fst x) pts) with (map fst pts) in H. lra.
Qed.

Lemma Qsquare_zero (x : Q) : x * x <= 0 -> x == 0.
Proof.
  intros H. destruct (Qeq_dec x 0) as [E|E]; [exact E|].
  pose proof (Qsquare_pos x E). lra.
Qed.

(** X1. The estimator returns the least-squares line: no line has a smaller
    total squared residual on the Sample, and a line with a residual as
    small is that line. *)
Theorem calculateRegression_least_squares (pts : list (Q * Q))
    (st : State xnum) (m' b' : Q) :
  distinct_x pts ->
  exists m b,
    fst (calculateRegression (sample_of pts) st)
    = {| fit_m := Fin m; fit_b := Fin b |}
    /\ sse m b pts <= sse m' b' pts
    /\ (sse m' b' pts <= sse m b pts -> m' == m /\ b' == b).
Proof.
  intros Hd.
  destruct (regression_ols pts Hd) as (m & b & Hr & Hm & Hb & Hpos).
  pose proof (distinct_x_size pts Hd) as Hn.
  exists m, b. split; [exact Hr|].
  assert (N1 : sumXY pts == m * sumXX pts + b * sumX pts).
  { rewrite Hb. unfold ols_intercept. rewrite Hm. unfold ols_slope.
    field. split; lra. }
  assert (N2 : sumY pts == m * sumX pts + size pts * b).
  { rewrite Hb. unfold ols_intercept. rewrite Hm. unfold ols_slope.
    field. split; lra. }
  pose proof (line_squares (m' - m) (b' - b) pts) as Hg.
  assert (Hdiff : sse m' b' pts - sse m b pts
                  == (m' - m) * (m' - m) * sumXX pts
                     + 2 * (m' - m) * (b' - b) * sumX pts
                     + size pts * (b' - b) * (b' - b)).
  { rewrite !sse_expand, N1, N2. ring. }
  split; [lra|].
  intros Hle.
  set (dm := m' - m) in *. set (db := b' - b) in *.
  set (n := size pts) in *. set (sx := sumX pts) in *.
  set (sxx := sumXX pts) in *.
  assert (Hzero : dm * dm * sxx + 2 * dm * db * sx + n * db * db <= 0) by lra.
  assert (Hid : n * (dm * dm * sxx + 2 * dm * db * sx + n * db * db)
                == (n * db + dm * sx) * (n * db + dm * sx)
                   + dm * dm * (n * sxx - sx * sx)) by ring.
  assert (HG0 : dm * dm * sxx + 2 * dm * db * sx + n * db * db == 0)
    by (apply Qle_antisym; assumption).
  assert (HnG : (n * db + dm * sx) * (n * db + dm * sx)
                + dm * dm * (n * sxx - sx * sx) == 0)
    by (rewrite <- Hid, HG0; ring).
  pose proof (Qsquare_nonneg (n * db + dm * sx)) as S1.
  pose proof (Qsquare_nonneg dm) as S2.
  assert (S3 : 0 <= dm * dm * (n * sxx - sx * sx)).
  { apply Qmult_le_0_compat; lra. }
  assert (Hdm : dm == 0).
  { apply Qsquare_zero.
    destruct (Qlt_le_dec 0 (dm * dm)) as [Hp|Hp]; [|exact Hp].
    assert (0 < dm * dm * (n * sxx - sx * sx))
      by (apply Qmult_lt_0_compat; assumption).
    lra. }
  assert (Hdb : n * db == 0).
  { apply Qsquare_zero.
    assert (E : (n * db + dm * sx) * (n * db + dm * sx) == (n * db) * (n * db))
      by (rewrite Hdm; ring).
    rewrite <- E. lra. }
  assert (Hdb' : db == 0).
  { destruct (Qeq_dec db 0) as [E|E]; [exact E|].
    exfalso. apply (Qmult_integral _ _) in Hdb. destruct Hdb; [lra|contradiction]. }
  unfold dm, db in *. split; lra.
Qed.

(** The sums of a Sample whose points lie on one line. *)
Lemma sums_on_line (a c : Q) (pts : list (Q * Q)) :
  (forall p, In p pts -> snd p == a * fst p + c) ->
  sumY pts == a * sumX pts + size pts * c
  /\ sumXY pts == a * sumXX pts + c * sumX pts.
Proof.
  induction pts as [|p pts IH]; intros Hl.
  - unfold sumY, sumX, sumXY, sumXX, size. simpl. split; ring.
  - destruct IH as [IH1 IH2]; [intros q Hq; apply Hl; right; exact Hq|].
    pose proof (Hl p (or_introl eq_refl)) as Hp.
    rewrite size_cons. unfold sumY, sumX, sumXY, sumXX in *.
    cbn [map Qsum fold_right].
    fold (Qsum (map snd pts)). fold (Qsum (map fst pts)).
    fold (Qsum (map (fun p => fst p * snd p) pts)).
    fold (Qsum (map (fun p => fst p * fst p) pts)).
    rewrite IH1, IH2, Hp. split; ring.
Qed.

(** X2. On points that lie on one line the estimator returns that line. *)
Theorem calculateRegression_recovers_line (a c : Q) (pts : list (Q * Q))
    (st : State xnum) :
  distinct_x pts ->
  (forall p, In p pts -> snd p == a * fst p + c) ->
  exists m b,
    fst (calculateRegression (sample_of pts) st)
    = {| fit_m := Fin m; fit_b := Fin b |}
    /\ m == a /\ b == c.
Proof.
  intros Hd Hl.
  destruct (regression_ols pts Hd) as (m & b & Hr & Hm & Hb & Hpos).
  pose proof (distinct_x_size pts Hd) as Hn.
  destruct (sums_on_line a c pts Hl) as [HY HXY].
  exists m, b. split; [exact Hr|].
  assert (Ha : m == a).
  { rewrite Hm. unfold ols_slope. rewrite HXY, HY. field. lra. }
  split; [exact Ha|].
  rewrite Hb. unfold ols_intercept. rewrite <- Hm, Ha, HY. field. lra.
Qed.

Lemma rescale_y_sums (s k : Q) (pts : list (Q * Q)) :
  size (rescale_y s k pts) == size pts
  /\ sumX (rescale_y s k pts) == sumX pts
  /\ sumXX (rescale_y s k pts) == sumXX pts
  /\ sumY (rescale_y s k pts) == s * sumY pts + size pts * k
  /\ sumXY (rescale_y s k pts) == s * sumXY pts + k * sumX pts.
Proof.
  induction pts as [|p pts (I0 & I1 & I2 & I3 & I4)].
  - unfold sumY, sumX, sumXY, sumXX, size. simpl. repeat split; ring.
  - unfold rescale_y in *. cbn [map]. rewrite !size_cons.
    unfold sumY, sumX, sumXY, sumXX in *. cbn [map Qsum fold_right fst snd].
    fold (Qsum (map snd pts)). fold (Qsum (map fst pts)).
    fold (Qsum (map (fun p => fst p * snd p) pts)).
    fold (Qsum (map (fun p => fst p * fst p) pts)).
    fold (Qsum (map snd (map (fun p => (fst p, s * snd p + k)) pts))).
    fold (Qsum (map fst (map (fun p => (fst p, s * snd p + k)) pts))).
    fold (Qsum (map (fun p => fst p * snd p)
                    (map (fun p => (fst p, s * snd p + k)) pts))).
    fold (Qsum (map (fun p => fst p * fst p)
                    (map (fun p => (fst p, s * snd p + k)) pts))).
    rewrite I0, I1, I2, I3, I4. repeat split; ring.
Qed.

Lemma rescale_y_distinct_x (s k : Q) (pts : list (Q * Q)) :
  distinct_x pts -> distinct_x (rescale_y s k pts).
Proof.
  intros (p & q & Hp & Hq & Hne).
  exists (fst p, s * snd p + k), (fst q, s * snd q + k).
  unfold rescale_y. split; [|split; [|exact Hne]].
  - apply (in_map (fun p => (fst p, s * snd p + k))). exact Hp.
  - apply (in_map (fun p => (fst p, s * snd p + k))). exact Hq.
Qed.

(** X3. Replacing every [y] by [s * y + k] multiplies the slope by [s] and
    turns the intercept [b] into [s * b + k]. *)
Theorem calculateRegression_rescale_y (s k : Q) (pts : list (Q * Q))
    (st : State xnum) :
  distinct_x pts ->
  exists m b m2 b2,
    fst (calculateRegression (sample_of pts) st)
    = {| fit_m := Fin m; fit_b := Fin b |}
    /\ fst (calculateRegression (sample_of (rescale_y s k pts)) st)
       = {| fit_m := Fin m2; fit_b := Fin b2 |}
    /\ m2 == s * m /\ b2 == s * b + k.
Proof.
  intros Hd.
  destruct (regression_ols pts Hd) as (m & b & Hr & Hm & Hb & Hpos).
  destruct (regression_ols _ (rescale_y_distinct_x s k pts Hd))
    as (m2 & b2 & Hr2 & Hm2 & Hb2 & _).
  pose proof (distinct_x_size pts Hd) as Hn.
  destruct (rescale_y_sums s k pts) as (E0 & E1 & E2 & E3 & E4).
  exists m, b, m2, b2. split; [exact Hr|]. split; [exact Hr2|].
  assert (Hs : m2 == s * m).
  { rewrite Hm2, Hm. unfold ols_slope. rewrite E0, E1, E2, E3, E4.
    field. lra. }
  split; [exact Hs|].
  rewrite Hb2, Hb. unfold ols_intercept. rewrite <- Hm2, <- Hm, Hs.
  rewrite E0, E1, E3. field. lra.
Qed.

Lemma Qsum_Permutation (l l' : list Q) : Permutation l l' -> Qsum l == Qsum l'.
Proof.
  induction 1 as [|x l l' _ IH|x y l|l l' l'' _ IH1 _ IH2];
    cbn [Qsum fold_right].
  - reflexivity.
  - fold (Qsum l). fold (Qsum l'). rewrite IH. reflexivity.
  - fold (Qsum l). ring.
  - rewrite IH1. exact IH2.
Qed.

(** X4. The Fit does not depend on the order of the points. *)
Theorem calculateRegression_order (pts pts' : list (Q * Q))
    (st : State xnum) :
  Permutation pts pts' -> distinct_x pts ->
  exists m b m2 b2,
    fst (calculateRegression (sample_of pts) st)
    = {| fit_m := Fin m; fit_b := Fin b |}
    /\ fst (calculateRegression (sample_of pts') st)
       = {| fit_m := Fin m2; fit_b := Fin b2 |}
    /\ m2 == m /\ b2 == b.
Proof.
  intros Hp Hd.
  assert (Hd' : distinct_x pts').
  { destruct Hd as (p & q & Hi & Hj & Hne). exists p, q.
    split; [apply (Permutation_in _ Hp Hi)|].
    split; [apply (Permutation_in _ Hp Hj)|exact Hne]. }
  destruct (regression_ols pts Hd) as (m & b & Hr & Hm & Hb & _).
  destruct (regression_ols pts' Hd') as (m2 & b2 & Hr2 & Hm2 & Hb2 & _).
  exists m, b, m2, b2. split; [exact Hr|]. split; [exact Hr2|].
  assert (E0 : size pts' == size pts)
    by (unfold size; rewrite (Permutation_length Hp); reflexivity).
  assert (E1 : sumX pts' == sumX pts)
    by (symmetry; apply Qsum_Permutation, Permutation_map, Hp).
  assert (E2 : sumY pts' == sumY pts)
    by (symmetry; apply Qsum_Permutation, Permutation_map, Hp).
  assert (E3 : sumXY pts' == sumXY pts)
    by (symmetry; apply Qsum_Permutation, Permutation_map, Hp).
  assert (E4 : sumXX pts' == sumXX pts)
    by (symmetry; apply Qsum_Permutation, Permutation_map, Hp).
  assert (Hs : m2 == m).
  { rewrite Hm2, Hm. unfold ols_slope. rewrite E0, E1, E2, E3, E4.
    reflexivity. }
  split; [exact Hs|].
  rewrite Hb2, Hb. unfold ols_intercept. rewrite <- Hm2, <- Hm, Hs, E0, E1, E2.
  reflexivity.
Qed.

End LeastSquares.

(** ** The fit of generated data *)

Section GeneratedFit.
Local Open Scope Q_scope.

(** In exact arithmetic, with finite draws, [generateData] sets the Sample
    [generated_sample] of its draws. *)
Lemma generateData_sample (st : State xnum) :
  unit_interval (rand st) ->
  points (generateData st)
  = sample_of (generated_sample
                 (fun i => qvalue (stream (rand st) (cursor (rand st) + i)))).
Proof.
  intros Hunit. rewrite generateData_points.
  unfold sample_of, generated_sample. rewrite map_map.
  apply map_ext. intros i.
  destruct (Hunit (cursor (rand st) + i)%nat) as (q & Hq & _).
  cbn [value exact] in Hq.
  unfold newPoint, Math_random. cbn [stream cursor fst snd].
  rewrite Hq. reflexivity.
Qed.

Lemma generated_sample_distinct_x (q : nat -> Q) :
  distinct_x (generated_sample q).
Proof.
  unfold generated_sample. cbn [seq map].
  eexists. eexists. split; [left; reflexivity|].
  split; [right; left; reflexivity|].
  cbn [fst]. intros E. vm_compute in E. discriminate E.
Qed.

(** The slope and the intercept of twenty generated points, as linear
    functions of the draws. *)
Lemma generated_fit_bounds (q : nat -> Q) (m b : Q) :
  (forall i, 0 <= q i < 1) ->
  m == ols_slope (generated_sample q) ->
  b == ols_intercept (generated_sample q) ->
  Qabs (m - (5 # 2)) <= 50 # 133 /\ Qabs (b - 5) <= 1155 # 266.
Proof.
  intros Hq Hm Hb.
  assert (HD : 0 < size (generated_sample q) * sumXX (generated_sample q)
                   - sumX (generated_sample q) * sumX (generated_sample q)).
  { apply (cross_square_pos fst). apply generated_sample_distinct_x. }
  assert (Hn : 0 < size (generated_sample q))
    by (apply distinct_x_size, generated_sample_distinct_x).
  assert (Hm' : m * (size (generated_sample q) * sumXX (generated_sample q)
                     - sumX (generated_sample q) * sumX (generated_sample q))
                == size (generated_sample q) * sumXY (generated_sample q)
                   - sumX (generated_sample q) * sumY (generated_sample q)).
  { rewrite Hm. unfold ols_slope. field. lra. }
  assert (Hb' : b * size (generated_sample q)
                == sumY (generated_sample q) - m * sumX (generated_sample q)).
  { rewrite Hb. unfold ols_intercept. rewrite <- Hm. field. lra. }
  clear Hm Hb HD Hn.
  unfold generated_sample, size, sumX, sumY, sumXY, sumXX in Hm', Hb'.
  cbn [seq map Qsum fold_right fst snd length] in Hm', Hb'.
  cbv [inject_Z Z.of_nat Pos.of_succ_nat Pos.succ] in Hm', Hb'.
  pose proof (Hq 0%nat). pose proof (Hq 1%nat). pose proof (Hq 2%nat).
  pose proof (Hq 3%nat). pose proof (Hq 4%nat). pose proof (Hq 5%nat).
  pose proof (Hq 6%nat). pose proof (Hq 7%nat). pose proof (Hq 8%nat).
  pose proof (Hq 9%nat). pose proof (Hq 10%nat). pose proof (Hq 11%nat).
  pose proof (Hq 12%nat). pose proof (Hq 13%nat). pose proof (Hq 14%nat).
  pose proof (Hq 15%nat). pose proof (Hq 16%nat). pose proof (Hq 17%nat).
  pose proof (Hq 18%nat). pose proof (Hq 19%nat).
  split; apply Qabs_Qle_condition; split; lra.
Qed.

End GeneratedFit.

(** ** What holds of every Sample the component handles *)

Section SampleInvariant.
Context {T : Type} {num : Number T}.
Variable engine : Rand T -> Prop.
Variable good : list (Point T) -> Prop.

(** The generator turns a good engine into a good Sample and a good
    engine. *)
Hypothesis generator_good :
  forall st : State T,
    engine (rand st) ->
    good (points (generateData st)) /\ engine (rand (generateData st)).

Lemma generateData_samples (st : State T) :
  samples_are engine good st -> samples_are engine good (generateData st).
Proof using generator_good.
  intros (He & _ & Hsc).
  destruct (generator_good st He) as [Hg He'].
  destruct (generateData_frame st) as (_ & _ & Hs & _).
  split; [exact He'|]. split; [right; exact Hg|].
  intros sc Hs'. rewrite Hs in Hs'. apply Hsc. exact Hs'.
Qed.

Lemma drawChart_samples (st st' : State T) :
  samples_are engine good st -> drawChart st = Some st' ->
  samples_are engine good st'.
Proof.
  intros (He & Hp & Hsc) Hd.
  assert (Hcase : points st = [] \/ points st <> []).
  { destruct (points st); [left; reflexivity|right; discriminate]. }
  destruct Hcase as [Hpts|Hpts].
  - rewrite drawChart_empty in Hd by exact Hpts. returned Hd st'.
    split; [exact He|split; [exact Hp|exact Hsc]].
  - destruct (drawChart_nonempty st st') as (lp & _ & ->);
      [exact Hpts|exact Hd|].
    cbn zeta. split; [exact He|split; [exact Hp|]].
    intros sc Hs. cbn [scene with_timers with_document] in Hs.
    returned Hs sc. cbn [circles]. rewrite bound_circlesOf.
    destruct Hp as [Hp|Hp]; [contradiction|exact Hp].
Qed.

Lemma react_samples (ev : Event T) (st st' : State T) :
  samples_are engine good st -> react ev st = Some st' ->
  samples_are engine good st'.
Proof using generator_good.
  intros Hg Hr. destruct ev; cbn [react] in Hr.
  - destruct (mounted st); [returned Hr st'; exact Hg|].
    destruct (drawChart (with_mounted true st)) as [st1|] eqn:Hd;
      [|discriminate Hr].
    returned Hr st'. apply generateData_samples.
    apply (drawChart_samples (with_mounted true st)); [exact Hg|exact Hd].
  - destruct (mounted st); returned Hr st';
      [apply generateData_samples|]; exact Hg.
  - destruct (mounted st && dirty st); [|returned Hr st'; exact Hg].
    apply (drawChart_samples (clean st)); [exact Hg|exact Hr].
  - returned Hr st'. exact Hg.
  - unfold fireTimer in Hr.
    destruct (earliest (timers st)) as [[tm rest]|];
      [|returned Hr st'; exact Hg].
    destruct (due tm <=? clock st)%nat; returned Hr st'; exact Hg.
  - destruct (circleAt i st); returned Hr st'; exact Hg.
  - destruct (circleAt i st); returned Hr st'; exact Hg.
  - destruct (circleAt i st); returned Hr st'; exact Hg.
  - returned Hr st'. unfold downloadPNG.
    destruct (mounted st); [destruct toPng|]; exact Hg.
Qed.

Lemma run_samples (evs : list (Event T)) (st st' : State T) :
  samples_are engine good st -> run evs st = Some st' ->
  samples_are engine good st'.
Proof using generator_good.
  revert st. induction evs as [|ev evs IH]; intros st Hg Hrun.
  - returned Hrun st'. exact Hg.
  - cbn [run] in Hrun.
    destruct (react ev st) as [st1|] eqn:Hr; [|discriminate Hrun].
    apply (IH st1); [|exact Hrun]. apply (react_samples ev st); assumption.
Qed.

Lemma initial_samples (g : Rand T) :
  engine g -> samples_are engine good (initial g).
Proof.
  intros He. split; [exact He|]. split; [left; reflexivity|].
  intros sc Hs. discriminate Hs.
Qed.

(** When the line samples of a good Sample can be computed, no event makes
    the component throw. *)
Hypothesis line_defined :
  forall (S : list (Point T)) (r : Fit T), good S -> is_Some (linePoints S r).

Lemma drawChart_defined (st : State T) :
  samples_are engine good st -> is_Some (drawChart st).
Proof using line_defined.
  intros (_ & Hp & _). unfold drawChart.
  destruct Hp as [Hp|Hp]; [rewrite Hp; eexists; reflexivity|].
  destruct (points st) as [|d ds]; [eexists; reflexivity|].
  unfold calculateRegression.
  destruct (line_defined (d :: ds) (regression (d :: ds)) Hp) as [lp Hl].
  rewrite Hl. eexists. reflexivity.
Qed.

Lemma react_defined (ev : Event T) (st : State T) :
  samples_are engine good st -> is_Some (react ev st).
Proof using line_defined.
  intros Hg. destruct ev; cbn [react]; try (eexists; reflexivity).
  - destruct (mounted st); [eexists; reflexivity|].
    destruct (drawChart_defined (with_mounted true st) Hg) as [st1 ->].
    eexists. reflexivity.
  - destruct (mounted st); eexists; reflexivity.
  - destruct (mounted st && dirty st); [|eexists; reflexivity].
    apply (drawChart_defined (clean st)). exact Hg.
  - destruct (fireTimer st); eexists; reflexivity.
  - destruct (circleAt i st); eexists; reflexivity.
  - destruct (circleAt i st); eexists; reflexivity.
  - destruct (circleAt i st); eexists; reflexivity.
Qed.

Lemma run_defined (evs : list (Event T)) (st : State T) :
  samples_are engine good st -> is_Some (run evs st).
Proof using generator_good line_defined.
  revert st. induction evs as [|ev evs IH]; intros st Hg.
  - eexists. reflexivity.
  - cbn [run]. destruct (react_defined ev st Hg) as [st1 Hr]. rewrite Hr.
    apply IH. apply (react_samples ev st); assumption.
Qed.

End SampleInvariant.

(** ** Generated data never makes the component throw *)

Section Twenty.

Lemma max_map {T : Type} {num : Number T} {A : Type} (values : list A)
    (valueof : A -> T) :
  max values valueof = max (map valueof values) (fun v => v).
Proof.
  unfold max.
  assert (H : forall cur : option T,
    fold_left
      (fun cur d =>
         let v := valueof d in
         match cur with
         | Some c => if ltb c v then Some v else cur
         | None => if geb v v then Some v else None
         end) values cur
    = fold_left
        (fun cur v =>
           match cur with
           | Some c => if ltb c v then Some v else cur
           | None => if geb v v then Some v else None
           end) (map valueof values) cur).
  { induction values as [|d values IH]; intros cur; cbn [map fold_left].
    - reflexivity.
    - apply IH. }
  apply H.
Qed.

(** The x values of a generated Sample, in both number models. *)
Lemma generateData_xs_exact (st : State xnum) :
  map px (points (generateData st)) = xs20.
Proof. rewrite generateData_points. vm_compute. reflexivity. Qed.

Lemma generateData_xs_binary64 (st : State float) :
  map px (points (generateData st)) = xs20.
Proof. rewrite generateData_points. vm_compute. reflexivity. Qed.

(** The line of a Sample with the x values 1 to 20 has 42 samples. *)
Lemma linePoints_xs_exact (S : list (Point xnum)) (r : Fit xnum) :
  map px S = xs20 ->
  exists lp, linePoints S r = Some lp /\ map px lp = halves42.
Proof.
  intros HS. unfold linePoints.
  rewrite (max_map S (fun d => px d)).
  change (map (fun d => px d) S) with (map px S). rewrite HS.
  remember (range (of_Z 0) (add (to_number (max xs20 (fun v => v))) (of_Z 1))
                  (of_Q (1 # 2))) as rg eqn:Erg.
  vm_compute in Erg. subst rg. cbn [option_map].
  eexists. split; [reflexivity|]. rewrite map_map. cbn [px].
  vm_compute. reflexivity.
Qed.

Lemma linePoints_xs_binary64 (S : list (Point float)) (r : Fit float) :
  map px S = xs20 ->
  exists lp, linePoints S r = Some lp /\ map px lp = halves42.
Proof.
  intros HS. unfold linePoints.
  rewrite (max_map S (fun d => px d)).
  change (map (fun d => px d) S) with (map px S). rewrite HS.
  remember (range (of_Z 0) (add (to_number (max xs20 (fun v => v))) (of_Z 1))
                  (of_Q (1 # 2))) as rg eqn:Erg.
  vm_compute in Erg. subst rg. cbn [option_map].
  eexists. split; [reflexivity|]. rewrite map_map. cbn [px].
  vm_compute. reflexivity.
Qed.

End Twenty.


(** X8. Every scene the component ever shows has twenty circles, bound to
    points with the x values 1 to 20 in order, and the Stats panel counts
    either no point (before the first data) or twenty. *)
Theorem scene_has_twenty_circles :
  (forall (g : Rand xnum) (evs : list (Event xnum)) (st : State xnum),
     run evs (initial g) = Some st ->
     (statPoints (renderStats st) = 0%nat
      \/ statPoints (renderStats st) = 20%nat)
     /\ forall sc, scene st = Some sc ->
          length (circles sc) = 20%nat
          /\ map (fun c => px (bound c)) (circles sc) = xs20)
  /\ (forall (g : Rand float) (evs : list (Event float)) (st : State float),
        run evs (initial g) = Some st ->
        (statPoints (renderStats st) = 0%nat
         \/ statPoints (renderStats st) = 20%nat)
        /\ forall sc, scene st = Some sc ->
             length (circles sc) = 20%nat
             /\ map (fun c => px (bound c)) (circles sc) = xs20).
Proof.
  split; intros g evs st Hrun.
  - destruct (run_samples (fun _ => True) (fun S => map px S = xs20)
                (fun st _ => conj (generateData_xs_exact st) I)
                evs (initial g) st (initial_samples _ _ g I) Hrun)
      as (_ & Hp & Hsc).
    split.
    + cbn [renderStats statPoints].
      destruct Hp as [->|Hp]; [left; reflexivity|right].
      rewrite <- (length_map px), Hp. reflexivity.
    + intros sc Hs. specialize (Hsc sc Hs). rewrite map_map in Hsc.
      split; [|exact Hsc].
      rewrite <- (length_map (fun c => px (bound c))), Hsc. reflexivity.
  - destruct (run_samples (fun _ => True) (fun S => map px S = xs20)
                (fun st _ => conj (generateData_xs_binary64 st) I)
                evs (initial g) st (initial_samples _ _ g I) Hrun)
      as (_ & Hp & Hsc).
    split.
    + cbn [renderStats statPoints].
      destruct Hp as [->|Hp]; [left; reflexivity|right].
      rewrite <- (length_map px), Hp. reflexivity.
    + intros sc Hs. specialize (Hsc sc Hs). rewrite map_map in Hsc.
      split; [|exact Hsc].
      rewrite <- (length_map (fun c => px (bound c))), Hsc. reflexivity.
Qed.

(** X10. The drawing effect on generated data: in every state the component
    reaches with a Sample, the effect succeeds, takes the 42 line samples at
    [0, 0.5, ..., 20.5], and registers 42 timers after the pending ones, due
    0, 50, ..., 2050 ms after the draw. *)
Theorem draw_schedules_42_segments :
  (forall (g : Rand xnum) (evs : list (Event xnum)) (st : State xnum),
     run evs (initial g) = Some st -> points st <> [] ->
     exists st' lp new,
       drawChart st = Some st'
       /\ linePoints (points st) (regression (points st)) = Some lp
       /\ map px lp = halves42
       /\ timers st' = timers st ++ new
       /\ map tm_i new = seq 0 42
       /\ map due new = map (fun i => clock st + i * 50)%nat (seq 0 42))
  /\ (forall (g : Rand float) (evs : list (Event float)) (st : State float),
        run evs (initial g) = Some st -> points st <> [] ->
        exists st' lp new,
          drawChart st = Some st'
          /\ linePoints (points st) (regression (points st)) = Some lp
          /\ map px lp = halves42
          /\ timers st' = timers st ++ new
          /\ map tm_i new = seq 0 42
          /\ map due new = map (fun i => clock st + i * 50)%nat (seq 0 42)).
Proof.
  split; intros g evs st Hrun Hne.
  - destruct (run_samples (fun _ => True) (fun S => map px S = xs20)
                (fun st _ => conj (generateData_xs_exact st) I)
                evs (initial g) st (initial_samples _ _ g I) Hrun)
      as (_ & Hp & _).
    destruct Hp as [Hp|Hp]; [contradiction|].
    destruct (linePoints_xs_exact (points st) (regression (points st)) Hp)
      as (lp & Hl & Hxs).
    assert (Hlen : length lp = 42%nat).
    { rewrite <- (length_map px), Hxs. reflexivity. }
    assert (Hd : exists st', drawChart st = Some st').
    { unfold drawChart, calculateRegression.
      destruct (points st); [contradiction|]. rewrite Hl. eexists. reflexivity. }
    destruct Hd as (st' & Hd).
    destruct (drawChart_nonempty st st' Hne Hd) as (lp' & Hl' & Hst').
    rewrite Hl in Hl'. returned Hl' lp'.
    exists st', lp. eexists. split; [exact Hd|]. split; [exact Hl|].
    split; [exact Hxs|]. rewrite Hst'. cbn zeta. cbn [timers with_timers].
    split; [reflexivity|]. unfold schedule. rewrite !map_map, Hlen.
    cbn [tm_i due]. split; [apply map_id|reflexivity].
  - destruct (run_samples (fun _ => True) (fun S => map px S = xs20)
                (fun st _ => conj (generateData_xs_binary64 st) I)
                evs (initial g) st (initial_samples _ _ g I) Hrun)
      as (_ & Hp & _).
    destruct Hp as [Hp|Hp]; [contradiction|].
    destruct (linePoints_xs_binary64 (points st) (regression (points st)) Hp)
      as (lp & Hl & Hxs).
    assert (Hlen : length lp = 42%nat).
    { rewrite <- (length_map px), Hxs. reflexivity. }
    assert (Hd : exists st', drawChart st = Some st').
    { unfold drawChart, calculateRegression.
      destruct (points st); [contradiction|]. rewrite Hl. eexists. reflexivity. }
    destruct Hd as (st' & Hd).
    destruct (drawChart_nonempty st st' Hne Hd) as (lp' & Hl' & Hst').
    rewrite Hl in Hl'. returned Hl' lp'.
    exists st', lp. eexists. split; [exact Hd|]. split; [exact Hl|].
    split; [exact Hxs|]. rewrite Hst'. cbn zeta. cbn [timers with_timers].
    split; [reflexivity|]. unfold schedule. rewrite !map_map, Hlen.
    cbn [tm_i due]. split; [apply map_id|reflexivity].
Qed.

(** ** The Fit of generated data *)

Section GeneratedStats.
Local Open Scope Q_scope.

Lemma generateData_from_draws (st : State xnum) :
  unit_interval (rand st) ->
  from_draws (points (generateData st))
  /\ unit_interval (rand (generateData st)).
Proof.
  intros Hunit. split.
  - exists (fun i => qvalue (stream (rand st) (cursor (rand st) + i))).
    split; [|apply generateData_sample; exact Hunit].
    intros i. destruct (Hunit (cursor (rand st) + i)%nat) as (q & Hq & Hr).
    cbn [value exact] in Hq. rewrite Hq. exact Hr.
  - intros k. rewrite generateData_rand. apply Hunit.
Qed.

(** The Fit of a Sample of the generator. *)
Lemma from_draws_fit (S : list (Point xnum)) :
  from_draws S ->
  exists m b,
    regression S = {| fit_m := Fin m; fit_b := Fin b |}
    /\ Qabs (m - (5 # 2)) <= 50 # 133 /\ Qabs (b - 5) <= 1155 # 266.
Proof.
  intros (q & Hq & ->).
  destruct (regression_ols _ (generated_sample_distinct_x q))
    as (m & b & Hr & Hm & Hb & _).
  exists m, b. split; [exact Hr|].
  apply (generated_fit_bounds q); assumption.
Qed.

End GeneratedStats.

(** X6. Generated data and the estimator together: when [Math.random] draws
    from [[0, 1)], the Fit of every generated Sample is finite, its slope
    within 50/133 of 2.5 and its intercept within 1155/266 of 5. *)
Theorem generated_fit_near_trend (st : State xnum) :
  unit_interval (rand st) ->
  exists m b,
    fst (calculateRegression (points (generateData st)) (generateData st))
    = {| fit_m := Fin m; fit_b := Fin b |}
    /\ (Qabs (m - (5 # 2)) <= 50 # 133)%Q
    /\ (Qabs (b - 5) <= 1155 # 266)%Q.
Proof.
  intros Hunit. apply from_draws_fit.
  apply generateData_from_draws. exact Hunit.
Qed.


(** ** The animation of one draw *)

Section Animation.
Context {T : Type} {num : Number T}.

(** A timer that is due no later than the others runs first. *)
Lemma earliest_head (tm : Timer T) (rest : list (Timer T)) :
  (forall t, In t rest -> (due tm <= due t)%nat) ->
  earliest (tm :: rest) = Some (tm, rest).
Proof.
  intros Hle. cbn [earliest].
  destruct (earliest rest) as [[tm' rest']|] eqn:E; [|reflexivity].
  destruct (earliest_In _ _ _ E) as [Hin _]. specialize (Hle tm' Hin).
  destruct (Nat.ltb_spec (due tm') (due tm)); [lia|reflexivity].
Qed.

(** Running the first [j] callbacks of an animation whose timers are the
    only ones pending. *)
Lemma fire_schedule (now : nat) (p : loc) (lp : list (Point T))
    (xs ys : Scale T) (j : nat) :
  forall (k m : nat) (st : State T),
    timers st
    = map (fun i => {| due := now + i * 50; tm_path := p;
                       tm_linePoints := lp; tm_i := i;
                       tm_xScale := xs; tm_yScale := ys |}) (seq k m) ->
    (j <= m)%nat -> (0 < j)%nat -> (now + (k + j - 1) * 50 <= clock st)%nat ->
    exists st',
      run (repeat FireTimer j) st = Some st'
      /\ timers st'
         = map (fun i => {| due := now + i * 50; tm_path := p;
                            tm_linePoints := lp; tm_i := i;
                            tm_xScale := xs; tm_yScale := ys |})
               (seq (k + j) (m - j))
      /\ scene st' = scene st /\ clock st' = clock st
      /\ store st' !! p
         = Some {| datum := firstn (k + j) lp;
                   d_attr := lineGenerator xs ys (firstn (k + j) lp) |}.
Proof.
  induction j as [|j IH]; intros k m st Ht Hj Hpos Hclock; [lia|].
  destruct m as [|m]; [lia|].
  cbn [seq map] in Ht.
  set (mk := fun i => {| due := now + i * 50; tm_path := p;
                         tm_linePoints := lp; tm_i := i;
                         tm_xScale := xs; tm_yScale := ys |}) in *.
  assert (He : earliest (timers st) = Some (mk k, map mk (seq (S k) m))).
  { rewrite Ht. apply earliest_head. intros t Hin.
    apply in_map_iff in Hin. destruct Hin as (i & <- & Hi).
    apply in_seq in Hi. cbn [due mk]. lia. }
  assert (Hf : react FireTimer st
               = Some (segmentCallback (mk k) (with_timers (map mk (seq (S k) m)) st))).
  { cbn [react]. unfold fireTimer. rewrite He.
    destruct (Nat.leb_spec (due (mk k)) (clock st)) as [_|Hgt];
      [reflexivity|cbn [due mk] in Hgt; lia]. }
  cbn [repeat run]. rewrite Hf.
  set (st1 := segmentCallback (mk k) (with_timers (map mk (seq (S k) m)) st)).
  destruct j as [|j].
  - exists st1. split; [reflexivity|].
    replace (k + 1)%nat with (S k) by lia. replace (S m - 1)%nat with m by lia.
    split; [reflexivity|]. split; [reflexivity|]. split; [reflexivity|].
    unfold st1, segmentCallback. cbn [store with_document with_timers tm_path mk].
    rewrite lookup_insert_eq. cbn [tm_i tm_linePoints tm_xScale tm_yScale].
    replace (S k) with (k + 1)%nat by lia. reflexivity.
  - destruct (IH (S k) m st1) as (st' & Hrun & Ht' & Hsc & Hck & Hst).
    + reflexivity.
    + lia.
    + lia.
    + unfold st1, segmentCallback. cbn [clock with_document with_timers]. lia.
    + exists st'. split; [exact Hrun|].
      replace (k + S (S j))%nat with (S k + S j)%nat by lia.
      split; [exact Ht'|]. split; [exact Hsc|]. split; [exact Hck|exact Hst].
Qed.

(** X11. The line appears segment by segment. From a state without pending
    timers, once the chart is drawn and [(j - 1) * 50] ms or more have
    passed, the first [j] callbacks leave the first [j] line samples in the
    path of the scene, with the [d] attribute drawn through the scales of
    the Sample; after all of them the path holds the whole line and no
    timer is pending. *)
Theorem line_appears_in_order (st st1 : State T) (lp : list (Point T))
    (j ms : nat) :
  points st <> [] -> timers st = [] -> drawChart st = Some st1 ->
  linePoints (points st) (regression (points st)) = Some lp ->
  (j <= length lp)%nat -> ((j - 1) * 50 <= ms)%nat ->
  exists sc st2 po,
    scene st1 = Some sc
    /\ run (Elapse ms :: repeat FireTimer j) st1 = Some st2
    /\ scene st2 = Some sc
    /\ store st2 !! path sc = Some po
    /\ datum po = firstn j lp
    /\ d_attr po
       = lineGenerator (xScaleOf (points st)) (yScaleOf (points st))
                       (firstn j lp)
    /\ length (timers st2) = (length lp - j)%nat.
Proof.
  intros Hne Ht Hd Hl Hj Hms.
  destruct (drawChart_nonempty st st1 Hne Hd) as (lp' & Hl' & ->).
  rewrite Hl in Hl'. apply Some_eq in Hl'. subst lp'.
  cbn zeta. clear Hd.
  set (p := fresh (dom (store st))).
  set (st1 := with_timers _ _).
  exists {| xAxis := xScaleOf (points st); yAxis := yScaleOf (points st);
            circles := circlesOf (points st); path := p |}.
  cbn [path].
  set (st1' := with_clock (clock st1 + ms) st1).
  assert (Hr : react (Elapse ms) st1 = Some st1') by reflexivity.
  cbn [run]. rewrite Hr.
  assert (Ht1 : timers st1'
                = schedule (clock st) p lp (xScaleOf (points st))
                           (yScaleOf (points st))).
  { unfold st1', st1. cbn [timers with_clock with_timers]. rewrite Ht.
    reflexivity. }
  destruct j as [|j].
  - exists st1'. eexists. cbn [repeat run].
    split; [reflexivity|]. split; [reflexivity|]. split; [reflexivity|].
    split; [unfold st1', st1;
            cbn [store with_clock with_timers with_document];
            apply lookup_insert_eq|].
    split; [reflexivity|]. split; [reflexivity|].
    rewrite Ht1. unfold schedule. rewrite length_map, length_seq. lia.
  - destruct (fire_schedule (clock st) p lp (xScaleOf (points st))
                (yScaleOf (points st)) (S j) 0 (length lp) st1')
      as (st2 & Hrun & Ht2 & Hsc & _ & Hst).
    + exact Ht1.
    + exact Hj.
    + lia.
    + unfold st1', st1.
      cbn [clock with_clock with_timers with_document setIntercept setSlope].
      lia.
    + exists st2. eexists. split; [reflexivity|]. split; [exact Hrun|].
      split; [rewrite Hsc; reflexivity|].
      split; [exact Hst|]. split; [reflexivity|]. split; [reflexivity|].
      rewrite Ht2, length_map, length_seq. reflexivity.
Qed.

End Animation.

(** ** What the events leave alone *)

Section Frames.
Context {T : Type} {num : Number T}.

Lemma generateData_keeps (st : State T) :
  tooltip (generateData st) = tooltip st
  /\ mounted (generateData st) = mounted st
  /\ downloads (generateData st) = downloads st
  /\ clock (generateData st) = clock st.
Proof.
  unfold generateData.
  destruct (Array_from 20 newPoint (rand st)) as [newPoints g].
  repeat split.
Qed.

Lemma drawChart_keeps (st st' : State T) :
  drawChart st = Some st' ->
  tooltip st' = tooltip st /\ mounted st' = mounted st
  /\ downloads st' = downloads st /\ clock st' = clock st
  /\ rand st' = rand st /\ points st' = points st.
Proof.
  intros Hd.
  assert (Hcase : points st = [] \/ points st <> []).
  { destruct (points st); [left; reflexivity|right; discriminate]. }
  destruct Hcase as [Hpts|Hpts].
  - rewrite drawChart_empty in Hd by exact Hpts. returned Hd st'.
    repeat split.
  - destruct (drawChart_nonempty st st' Hpts Hd) as (lp & _ & ->).
    repeat split.
Qed.

Lemma fireTimer_keeps (st st' : State T) :
  fireTimer st = Some st' ->
  tooltip st' = tooltip st /\ mounted st' = mounted st
  /\ downloads st' = downloads st /\ clock st' = clock st
  /\ rand st' = rand st /\ points st' = points st
  /\ slope st' = slope st /\ intercept st' = intercept st
  /\ scene st' = scene st.
Proof.
  unfold fireTimer. intros Hf.
  destruct (earliest (timers st)) as [[tm rest]|]; [|discriminate Hf].
  destruct (due tm <=? clock st)%nat; [|discriminate Hf].
  returned Hf st'. repeat split.
Qed.

(** One event: whether the component is mounted afterwards, and what it
    hands to the browser. *)
Lemma react_exports (ev : Event T) (st st' : State T) :
  react ev st = Some st' ->
  mounted st' = match ev with Mount => true | _ => mounted st end
  /\ downloads st' = downloads st ++ exported (mounted st) [ev].
Proof.
  intros Hr. destruct ev; cbn [react] in Hr; cbn [exported].
  - destruct (mounted st) eqn:Hm; [returned Hr st'; rewrite Hm, app_nil_r; split; reflexivity|].
    destruct (drawChart (with_mounted true st)) as [st1|] eqn:Hd;
      [|discriminate Hr].
    returned Hr st'.
    destruct (generateData_keeps st1) as (_ & Hm1 & Hd1 & _).
    destruct (drawChart_keeps _ _ Hd) as (_ & Hm2 & Hd2 & _).
    rewrite Hm1, Hd1, Hm2, Hd2, app_nil_r. split; reflexivity.
  - destruct (generateData_keeps st) as (_ & Hm1 & Hd1 & _).
    destruct (mounted st) eqn:Hm; returned Hr st';
      rewrite ?Hm1, ?Hd1, ?Hm, app_nil_r; split; reflexivity.
  - destruct (mounted st && dirty st); [|returned Hr st'; rewrite app_nil_r; split; reflexivity].
    destruct (drawChart_keeps _ _ Hr) as (_ & Hm2 & Hd2 & _).
    rewrite Hm2, Hd2, app_nil_r. split; reflexivity.
  - returned Hr st'. rewrite app_nil_r. split; reflexivity.
  - destruct (fireTimer st) as [st1|] eqn:Hf; returned Hr st';
      [|rewrite app_nil_r; split; reflexivity].
    destruct (fireTimer_keeps _ _ Hf) as (_ & Hm2 & Hd2 & _).
    rewrite Hm2, Hd2, app_nil_r. split; reflexivity.
  - destruct (circleAt i st); returned Hr st'; rewrite app_nil_r;
      split; reflexivity.
  - destruct (circleAt i st); returned Hr st'; rewrite app_nil_r;
      split; reflexivity.
  - destruct (circleAt i st); returned Hr st'; rewrite app_nil_r;
      split; reflexivity.
  - returned Hr st'. unfold downloadPNG.
    destruct (mounted st) eqn:Hm; destruct toPng;
      cbn [mounted downloads with_downloads]; rewrite ?Hm, ?app_nil_r;
      split; reflexivity.
Qed.

Lemma run_exports (evs : list (Event T)) (st st' : State T) :
  run evs st = Some st' ->
  downloads st' = downloads st ++ exported (mounted st) evs.
Proof.
  revert st. induction evs as [|ev evs IH]; intros st Hrun.
  - returned Hrun st'. cbn [exported]. rewrite app_nil_r. reflexivity.
  - cbn [run] in Hrun.
    destruct (react ev st) as [st1|] eqn:Hr; [|discriminate Hrun].
    destruct (react_exports ev st st1 Hr) as [Hm Hd].
    rewrite (IH st1 Hrun), Hd, <- app_assoc. f_equal.
    rewrite Hm. destruct ev; try reflexivity.
    destruct toPng; [destruct (mounted st)|]; reflexivity.
Qed.

Lemma exported_named (b : bool) (evs : list (Event T)) :
  Forall (fun d => download d = "chart.png"%string) (exported b evs).
Proof.
  revert b. induction evs as [|ev evs IH]; intros b; [constructor|].
  destruct ev; cbn [exported]; try apply IH.
  destruct toPng; [destruct b; [constructor; [reflexivity|]|]|]; apply IH.
Qed.

(** X13. The files the component hands to the browser are exactly the captures
    that resolved after a click on the export button, in the order of the
    clicks, each under the name [chart.png]; no other event produces a
    file, and a click before the first render or with a rejected capture
    produces none. *)
Theorem exports_are_the_resolved_captures (g : Rand T)
    (evs : list (Event T)) (st : State T) :
  run evs (initial g) = Some st ->
  downloads st = exported false evs
  /\ Forall (fun d => download d = "chart.png"%string) (downloads st).
Proof.
  intros Hrun. pose proof (run_exports evs (initial g) st Hrun) as H.
  cbn [downloads mounted initial app] in H. rewrite H.
  split; [reflexivity|apply exported_named].
Qed.

Lemma react_tooltip_whole (ev : Event T) (s0 s1 : State T) :
  tooltip_whole (tooltip s0) -> react ev s0 = Some s1 ->
  tooltip_whole (tooltip s1).
Proof.
  intros H0 Hr. destruct ev; cbn [react] in Hr.
  - destruct (mounted s0); [returned Hr s1; exact H0|].
    destruct (drawChart (with_mounted true s0)) as [s2|] eqn:Hd;
      [|discriminate Hr].
    returned Hr s1. destruct (generateData_keeps s2) as (-> & _).
    destruct (drawChart_keeps _ _ Hd) as (-> & _). exact H0.
  - destruct (mounted s0); returned Hr s1; [|exact H0].
    destruct (generateData_keeps s0) as (-> & _). exact H0.
  - destruct (mounted s0 && dirty s0); [|returned Hr s1; exact H0].
    destruct (drawChart_keeps _ _ Hr) as (-> & _). exact H0.
  - returned Hr s1. exact H0.
  - destruct (fireTimer s0) as [s2|] eqn:Hf; returned Hr s1; [|exact H0].
    destruct (fireTimer_keeps _ _ Hf) as (-> & _). exact H0.
  - destruct (circleAt i s0) as [c|]; returned Hr s1; [|exact H0].
    right. split; [reflexivity|]. exists (bound c). split; reflexivity.
  - destruct (circleAt i s0) as [c|]; returned Hr s1; exact H0.
  - destruct (circleAt i s0) as [c|]; returned Hr s1; [|exact H0].
    left. repeat split.
  - returned Hr s1. unfold downloadPNG.
    destruct (mounted s0); [destruct toPng|]; exact H0.
Qed.

Lemma run_tooltip_whole (evs : list (Event T)) (s0 st : State T) :
  tooltip_whole (tooltip s0) -> run evs s0 = Some st ->
  tooltip_whole (tooltip st).
Proof.
  revert s0. induction evs as [|ev evs IH]; intros s0 H0 Hrun.
  - returned Hrun st. exact H0.
  - cbn [run] in Hrun.
    destruct (react ev s0) as [s1|] eqn:Hr; [|discriminate Hrun].
    apply (IH s1); [|exact Hrun]. apply (react_tooltip_whole ev s0); assumption.
Qed.

(** X14. The tooltip is whole in every state the component reaches, so the
    overlay shows either nothing or both coordinates; and only the pointer
    events on a circle change it: new data, a redraw, a timer or an export
    leave a visible tooltip as it is. *)
Theorem tooltip_changes_with_pointer_only (g : Rand T)
    (evs : list (Event T)) (st : State T) :
  run evs (initial g) = Some st ->
  tooltip_whole (tooltip st)
  /\ overlay_whole (renderTooltip st)
  /\ (forall ev st', is_mouse ev = false -> react ev st = Some st' ->
        tooltip st' = tooltip st).
Proof.
  intros Hrun.
  assert (Hw : tooltip_whole (tooltip st)).
  { apply (run_tooltip_whole evs (initial g)); [|exact Hrun].
    left. repeat split. }
  split; [exact Hw|]. split.
  - unfold renderTooltip, overlay_whole.
    destruct Hw as [(-> & _)|(-> & d & -> & ->)]; [left; reflexivity|right].
    eexists. exists d. split; [reflexivity|]. split; reflexivity.
  - intros ev st' Hm Hr. destruct ev; cbn [react is_mouse] in Hr, Hm;
      try discriminate Hm.
    + destruct (mounted st); [returned Hr st'; reflexivity|].
      destruct (drawChart (with_mounted true st)) as [s2|] eqn:Hd;
        [|discriminate Hr].
      returned Hr st'. destruct (generateData_keeps s2) as (-> & _).
      destruct (drawChart_keeps _ _ Hd) as (-> & _). reflexivity.
    + destruct (mounted st); returned Hr st'; [|reflexivity].
      destruct (generateData_keeps st) as (-> & _). reflexivity.
    + destruct (mounted st && dirty st); [|returned Hr st'; reflexivity].
      destruct (drawChart_keeps _ _ Hr) as (-> & _). reflexivity.
    + returned Hr st'. reflexivity.
    + destruct (fireTimer st) as [s2|] eqn:Hf; returned Hr st'; [|reflexivity].
      destruct (fireTimer_keeps _ _ Hf) as (-> & _). reflexivity.
    + returned Hr st'. unfold downloadPNG.
      destruct (mounted st); [destruct toPng|]; reflexivity.
Qed.

End Frames.

(** X15. Moving the pointer over a circle after entering it moves the overlay to
    ten pixels right of and below the pointer, and keeps the coordinates of
    the circle that was entered. *)
Theorem overlay_follows_pointer {T : Type} {num : Number T} (st : State T)
    (i : nat) (c : Circle T) (enter move : MouseEvent T) :
  circleAt i st = Some c ->
  exists st2,
    run [MouseEnter i enter; MouseMove i move] st = Some st2
    /\ renderTooltip st2
       = Some {| top := add (clientY move) (of_Z 10);
                 left := add (clientX move) (of_Z 10);
                 shownX := Some (toFixed (px (bound c)) 2);
                 shownY := Some (toFixed (py (bound c)) 2) |}.
Proof.
  intros Hc. eexists. cbn [run react]. rewrite Hc.
  replace (circleAt i (mouseenter enter (bound c) st)) with (Some c)
    by (rewrite <- Hc; reflexivity).
  split; reflexivity.
Qed.

(** ** The draws of the generator *)

(** X5. One call of [generateData] takes exactly twenty draws from
    [Math.random], one per point and in the order of the points: the engine
    is left twenty draws further, and two engines that agree on these
    twenty draws give the same Sample. *)
Theorem generateData_takes_twenty_draws {T : Type} {num : Number T}
    (st st2 : State T) :
  rand (generateData st)
  = {| stream := stream (rand st); cursor := cursor (rand st) + 20 |}
  /\ ((forall i, (i < 20)%nat ->
         stream (rand st) (cursor (rand st) + i)
         = stream (rand st2) (cursor (rand st2) + i)) ->
      points (generateData st) = points (generateData st2)).
Proof.
  split.
  - unfold generateData, Array_from. destruct (rand st) as [s c].
    rewrite Array_from_indices_newPoint. reflexivity.
  - intros Hagree. rewrite !generateData_points.
    apply map_ext_in. intros i Hi. apply in_seq in Hi.
    unfold newPoint, Math_random. cbn [stream cursor fst].
    rewrite Hagree by lia. reflexivity.
Qed.

(** ** The circles and the plot area *)

Section PlotArea.
Local Open Scope Q_scope.

(** [d3.max] of finite values. *)
Lemma max_finite_from (l : list Q) (c : Q) :
  exists c',
    fold_left
      (fun cur v =>
         match cur with
         | Some cv => if ltb cv v then Some v else cur
         | None => if geb v v then Some v else None
         end)
      (map Fin l) (Some (Fin c))
    = Some (Fin c')
    /\ c <= c' /\ (forall x, In x l -> x <= c') /\ In c' (c :: l).
Proof.
  revert c. induction l as [|x l IH]; intros c.
  - exists c. cbn. repeat split; [apply Qle_refl|intros x []|left; reflexivity].
  - cbn [map fold_left].
    change (ltb (Fin c) (Fin x)) with (negb (Qle_bool x c)).
    destruct (Qle_bool x c) eqn:E; cbn [negb].
    + apply Qle_bool_iff in E.
      destruct (IH c) as (c' & Hf & Hle & Hall & Hin).
      exists c'. split; [exact Hf|]. split; [exact Hle|]. split.
      * intros y [<-|Hy]; [lra|apply Hall; exact Hy].
      * destruct Hin as [<-|Hin]; [left; reflexivity|right; right; exact Hin].
    + assert (Hlt : c < x).
      { apply Qnot_le_lt. intros Hle. apply Qle_bool_iff in Hle.
        rewrite Hle in E. discriminate E. }
      destruct (IH x) as (c' & Hf & Hle & Hall & Hin).
      exists c'. split; [exact Hf|]. split; [lra|]. split.
      * intros y [<-|Hy]; [exact Hle|apply Hall; exact Hy].
      * right. exact Hin.
Qed.

Lemma max_finite (pts : list (Q * Q)) (sel : Point xnum -> xnum)
    (g : Q * Q -> Q) :
  (forall p, sel {| px := Fin (fst p); py := Fin (snd p) |} = Fin (g p)) ->
  pts <> [] ->
  exists mx,
    max (sample_of pts) sel = Some (Fin mx)
    /\ In mx (map g pts) /\ forall v, In v (map g pts) -> v <= mx.
Proof.
  intros Hsel Hne. rewrite max_map.
  assert (Hmap : map sel (sample_of pts) = map Fin (map g pts)).
  { unfold sample_of. rewrite !map_map. apply map_ext. intros p. apply Hsel. }
  rewrite Hmap. destruct pts as [|p pts]; [contradiction|].
  unfold max. cbn [map fold_left].
  assert (Hg : geb (Fin (g p)) (Fin (g p)) = true).
  { unfold geb, ltb. cbn [value exact]. rewrite negb_involutive.
    apply Qle_bool_iff. apply Qle_refl. }
  rewrite Hg.
  destruct (max_finite_from (map g pts) (g p)) as (c' & Hf & Hle & Hall & Hin).
  exists c'. split; [exact Hf|]. split; [exact Hin|].
  intros v [<-|Hv]; [exact Hle|apply Hall; exact Hv].
Qed.

(** A linear scale on finite numbers, with an increasing domain. *)
Lemma scale_finite (a b r s x : Q) :
  a < b ->
  scale {| d0 := Fin a; d1 := Fin b; r0 := Fin r; r1 := Fin s |} (Fin x)
  = Some (Fin (r * (inject_Z 1 - (x - a) / (b - a)) + s * ((x - a) / (b - a)))).
Proof.
  intros Hab. unfold scale. cbn [d0 d1 r0 r1].
  change (isNaN (Fin x)) with false. cbv iota.
  assert (Hlt : ltb (Fin b) (Fin a) = false).
  { change (ltb (Fin b) (Fin a)) with (negb (Qle_bool a b)).
    assert (E : Qle_bool a b = true) by (apply Qle_bool_iff; lra).
    rewrite E. reflexivity. }
  rewrite Hlt. unfold normalize, interpolateNumber.
  change (sub (Fin b) (Fin a)) with (Fin (b - a)).
  change (truthy (Fin (b - a))) with (negb (Qzero (b - a))).
  assert (Hz : Qzero (b - a) = false) by (apply Qzero_false; lra).
  rewrite Hz. cbn [negb].
  change (sub (Fin x) (Fin a)) with (Fin (x - a)).
  change (div (Fin (x - a)) (Fin (b - a)))
    with (if Qzero (b - a)
          then (if Qzero (x - a) then NaN else Inf (Qnegative (x - a)))
          else Fin ((x - a) / (b - a))).
  rewrite Hz. reflexivity.
Qed.

(** Where a value of the domain lands in the range. *)
Lemma interpolation_between (a b x : Q) :
  a < b -> a <= x <= b -> 0 <= (x - a) / (b - a) <= 1.
Proof.
  intros Hab [Hax Hxb]. split.
  - apply Qle_shift_div_l; lra.
  - apply Qle_shift_div_r; lra.
Qed.

(** The circles of a Sample with finite coordinates that are not negative
    lie inside the plot area. *)
Lemma circlesOf_inside_plot (pts : list (Q * Q)) (c : Circle xnum) :
  (forall p, In p pts -> 0 <= fst p /\ 0 <= snd p) ->
  In c (circlesOf (sample_of pts)) -> inside_plot c.
Proof.
  intros Hpos Hin.
  assert (Hne : pts <> []) by (destruct pts; [destruct Hin|discriminate]).
  destruct (max_finite pts (fun d => px d) fst) as (mx & Hmx & Hmxin & Hmxall);
    [reflexivity|exact Hne|].
  destruct (max_finite pts (fun d => py d) snd) as (my & Hmy & Hmyin & Hmyall);
    [reflexivity|exact Hne|].
  unfold circlesOf in Hin. apply in_map_iff in Hin.
  destruct Hin as (d & <- & Hd). unfold sample_of in Hd.
  apply in_map_iff in Hd. destruct Hd as (p & <- & Hp).
  destruct (Hpos p Hp) as [Hx Hy].
  assert (Hxm : fst p <= mx) by (apply Hmxall, in_map, Hp).
  assert (Hym : snd p <= my) by (apply Hmyall, in_map, Hp).
  assert (Hmx0 : 0 <= mx).
  { apply in_map_iff in Hmxin. destruct Hmxin as (q & <- & Hq).
    apply (Hpos q Hq). }
  assert (Hmy0 : 0 <= my).
  { apply in_map_iff in Hmyin. destruct Hmyin as (q & <- & Hq).
    apply (Hpos q Hq). }
  unfold inside_plot. cbn [cx cy px py of_Q exact].
  unfold xScaleOf, yScaleOf. rewrite Hmx, Hmy. cbn [to_number].
  change (add (Fin mx) (of_Z 1)) with (Fin (mx + inject_Z 1)).
  change (add (Fin my) (of_Z 5)) with (Fin (my + inject_Z 5)).
  change (of_Z 0) with (Fin (inject_Z 0)).
  change (of_Z 40) with (Fin (inject_Z 40)).
  change (sub (of_Z 600) (of_Z 30)) with (Fin (inject_Z 600 - inject_Z 30)).
  change (sub (of_Z 400) (of_Z 30)) with (Fin (inject_Z 400 - inject_Z 30)).
  change (inject_Z 0) with 0. change (inject_Z 1) with 1.
  change (inject_Z 5) with 5. change (inject_Z 40) with 40.
  change (inject_Z 600) with 600. change (inject_Z 400) with 400.
  change (inject_Z 30) with 30.
  rewrite !scale_finite by lra.
  eexists. eexists. split; [reflexivity|]. split; [reflexivity|].
  change (inject_Z 1) with 1.
  pose proof (interpolation_between 0 (mx + 1) (fst p)) as Ht.
  pose proof (interpolation_between 0 (my + 5) (snd p)) as Hs.
  destruct Ht as [Ht0 Ht1]; [lra|lra|].
  destruct Hs as [Hs0 Hs1]; [lra|lra|].
  set (t := (fst p - 0) / (mx + 1 - 0)) in *.
  set (s := (snd p - 0) / (my + 5 - 0)) in *.
  split; split; lra.
Qed.

Lemma generated_sample_nonneg (q : nat -> Q) (p : Q * Q) :
  (forall i, 0 <= q i < 1) -> In p (generated_sample q) ->
  0 <= fst p /\ 0 <= snd p.
Proof.
  intros Hq Hin. unfold generated_sample in Hin. apply in_map_iff in Hin.
  destruct Hin as (i & <- & _). cbn [fst snd].
  assert (Hi : 0 <= inject_Z (Z.of_nat i)).
  { change 0 with (inject_Z 0). rewrite <- Zle_Qle. lia. }
  pose proof (Hq i). change (inject_Z 1) with 1. change (inject_Z 5) with 5.
  split; lra.
Qed.

End PlotArea.

(** X9. The circles are drawn inside the plot area: those of any Sample with
    finite coordinates that are not negative and, when [Math.random] draws
    from [[0, 1)], every circle of every scene the component shows. *)
Theorem circles_inside_plot :
  (forall (pts : list (Q * Q)) (c : Circle xnum),
     (forall p, In p pts -> 0 <= fst p /\ 0 <= snd p)%Q ->
     In c (circlesOf (sample_of pts)) -> inside_plot c)
  /\ (forall (g : Rand xnum) (evs : list (Event xnum)) (st : State xnum)
             (sc : Scene xnum) (c : Circle xnum),
        unit_interval g -> run evs (initial g) = Some st ->
        scene st = Some sc -> In c (circles sc) -> inside_plot c).
Proof.
  split; [exact circlesOf_inside_plot|].
  intros g evs st sc c Hunit Hrun Hs Hin.
  destruct (run_samples unit_interval from_draws generateData_from_draws
              evs (initial g) st (initial_samples _ _ g Hunit) Hrun)
    as (_ & _ & Hsc).
  destruct (run_invariant evs (initial g) st (initial_invariant g) Hrun)
    as [[_ Hdisp] _].
  destruct (Hdisp sc Hs) as (S & (_ & Hcs & _) & _).
  specialize (Hsc sc Hs). rewrite Hcs, bound_circlesOf in Hsc.
  destruct Hsc as (q & Hq & ->). rewrite Hcs in Hin.
  apply (circlesOf_inside_plot (generated_sample q)); [|exact Hin].
  intros p Hp. apply (generated_sample_nonneg q p Hq Hp).
Qed.

(** ** The properties at concrete inputs *)

Lemma calculateRegression_least_squares_witness :
  exists m b,
    fst (calculateRegression (sample_of linear3) (initial tenths))
    = {| fit_m := Fin m; fit_b := Fin b |}
    /\ (sse m b linear3 <= sse 1 0 linear3)%Q
    /\ ((sse 1 0 linear3 <= sse m b linear3)%Q -> (1 == m /\ 0 == b)%Q).
Proof.
  apply (calculateRegression_least_squares linear3 (initial tenths) 1 0).
  exists (1, 3)%Q, (2, 5)%Q.
  split; [left; reflexivity|].
  split; [right; left; reflexivity|].
  intros E. vm_compute in E. discriminate E.
Defined.

Lemma calculateRegression_recovers_line_witness :
  exists m b,
    fst (calculateRegression (sample_of linear3) (initial tenths))
    = {| fit_m := Fin m; fit_b := Fin b |}
    /\ (m == 2 /\ b == 1)%Q.
Proof.
  apply (calculateRegression_recovers_line 2 1 linear3 (initial tenths)).
  - exists (1, 3)%Q, (2, 5)%Q.
    split; [left; reflexivity|].
    split; [right; left; reflexivity|].
    intros E. vm_compute in E. discriminate E.
  - intros p [<-|[<-|[<-|[]]]]; vm_compute; reflexivity.
Defined.

Lemma calculateRegression_rescale_y_witness :
  exists m b m2 b2,
    fst (calculateRegression (sample_of linear3) (initial tenths))
    = {| fit_m := Fin m; fit_b := Fin b |}
    /\ fst (calculateRegression
              (sample_of (rescale_y (9 # 5) 32 linear3)) (initial tenths))
       = {| fit_m := Fin m2; fit_b := Fin b2 |}
    /\ (m2 == (9 # 5) * m /\ b2 == (9 # 5) * b + 32)%Q.
Proof.
  apply (calculateRegression_rescale_y (9 # 5) 32 linear3 (initial tenths)).
  exists (1, 3)%Q, (2, 5)%Q.
  split; [left; reflexivity|].
  split; [right; left; reflexivity|].
  intros E. vm_compute in E. discriminate E.
Defined.

Lemma calculateRegression_order_witness :
  exists m b m2 b2,
    fst (calculateRegression (sample_of linear3) (initial tenths))
    = {| fit_m := Fin m; fit_b := Fin b |}
    /\ fst (calculateRegression (sample_of (rev linear3)) (initial tenths))
       = {| fit_m := Fin m2; fit_b := Fin b2 |}
    /\ (m2 == m /\ b2 == b)%Q.
Proof.
  apply (calculateRegression_order linear3 (rev linear3) (initial tenths)).
  - apply Permutation_rev.
  - exists (1, 3)%Q, (2, 5)%Q.
    split; [left; reflexivity|].
    split; [right; left; reflexivity|].
    intros E. vm_compute in E. discriminate E.
Defined.

Lemma scene_has_twenty_circles_witness :
  (statPoints (renderStats (after two_segments tenths)) = 0%nat
   \/ statPoints (renderStats (after two_segments tenths)) = 20%nat)
  /\ forall sc, scene (after two_segments tenths) = Some sc ->
       length (circles sc) = 20%nat
       /\ map (fun c => px (bound c)) (circles sc) = xs20.
Proof.
  apply (proj1 scene_has_twenty_circles tenths two_segments).
  vm_compute. reflexivity.
Defined.

Lemma draw_schedules_42_segments_witness :
  exists st' lp new,
    drawChart (after [Mount] eighths) = Some st'
    /\ linePoints (points (after [Mount] eighths))
                  (regression (points (after [Mount] eighths))) = Some lp
    /\ map px lp = halves42
    /\ timers st' = timers (after [Mount] eighths) ++ new
    /\ map tm_i new = seq 0 42
    /\ map due new
       = map (fun i => clock (after [Mount] eighths) + i * 50)%nat (seq 0 42).
Proof.
  apply (proj2 draw_schedules_42_segments eighths [Mount]).
  - vm_compute. reflexivity.
  - vm_compute. discriminate.
Defined.

Lemma generated_fit_near_trend_witness :
  exists m b,
    fst (calculateRegression (points (generateData (initial tenths)))
                             (generateData (initial tenths)))
    = {| fit_m := Fin m; fit_b := Fin b |}
    /\ (Qabs (m - (5 # 2)) <= 50 # 133)%Q
    /\ (Qabs (b - 5) <= 1155 # 266)%Q.
Proof.
  apply (generated_fit_near_trend (initial tenths)).
  intros k. exists (Z.of_nat (k mod 7) # 10)%Q. split; [reflexivity|].
  assert (Hk : (k mod 7 < 7)%nat) by (apply Nat.mod_upper_bound; lia).
  unfold Qle, Qlt. cbn [Qnum Qden]. lia.
Defined.


Lemma line_appears_in_order_witness :
  exists sc st2 po,
    scene (after [Mount; FlushEffect] tenths) = Some sc
    /\ run (Elapse 100 :: repeat FireTimer 3)
           (after [Mount; FlushEffect] tenths) = Some st2
    /\ scene st2 = Some sc
    /\ store st2 !! path sc = Some po
    /\ datum po = firstn 3 drawn_line
    /\ d_attr po
       = lineGenerator (xScaleOf (points (clean (after [Mount] tenths))))
                       (yScaleOf (points (clean (after [Mount] tenths))))
                       (firstn 3 drawn_line)
    /\ length (timers st2) = (length drawn_line - 3)%nat.
Proof.
  apply (line_appears_in_order (clean (after [Mount] tenths))
           (after [Mount; FlushEffect] tenths) drawn_line 3 100).
  - vm_compute. discriminate.
  - vm_compute. reflexivity.
  - vm_compute. reflexivity.
  - vm_compute. reflexivity.
  - vm_compute. lia.
  - vm_compute. lia.
Defined.

Lemma exports_are_the_resolved_captures_witness :
  downloads (after export_session tenths) = exported false export_session
  /\ Forall (fun d => download d = "chart.png"%string)
            (downloads (after export_session tenths)).
Proof.
  apply (exports_are_the_resolved_captures tenths export_session).
  vm_compute. reflexivity.
Defined.

Lemma tooltip_changes_with_pointer_only_witness :
  tooltip_whole (tooltip (after hover_session tenths))
  /\ overlay_whole (renderTooltip (after hover_session tenths))
  /\ (forall ev st', is_mouse ev = false ->
        react ev (after hover_session tenths) = Some st' ->
        tooltip st' = tooltip (after hover_session tenths)).
Proof.
  apply (tooltip_changes_with_pointer_only tenths hover_session).
  vm_compute. reflexivity.
Defined.

Lemma overlay_follows_pointer_witness :
  exists st2,
    run [MouseEnter 0 pointer; MouseMove 0 pointer_moved]
        (after two_segments tenths) = Some st2
    /\ renderTooltip st2
       = Some {| top := add (clientY pointer_moved) (of_Z 10);
                 left := add (clientX pointer_moved) (of_Z 10);
                 shownX := Some (toFixed (px (bound first_circle)) 2);
                 shownY := Some (toFixed (py (bound first_circle)) 2) |}.
Proof.
  apply (overlay_follows_pointer (after two_segments tenths) 0 first_circle
           pointer pointer_moved).
  vm_compute. reflexivity.
Defined.

Lemma generateData_takes_twenty_draws_witness :
  points (generateData (initial tenths))
  = points (generateData (initial tenths_then_halves)).
Proof.
  apply (proj2 (generateData_takes_twenty_draws (initial tenths)
                  (initial tenths_then_halves))).
  intros i Hi. cbn [rand initial cursor stream tenths tenths_then_halves].
  assert (E : (0 + i <? 20)%nat = true) by (apply Nat.ltb_lt; lia).
  rewrite E. reflexivity.
Defined.

Lemma circles_inside_plot_witness : inside_plot first_circle.
Proof.
  apply (proj2 circles_inside_plot tenths two_segments
           (after two_segments tenths) (scene_of (after two_segments tenths))).
  - intros k. exists (Z.of_nat (k mod 7) # 10)%Q. split; [reflexivity|].
    assert (Hk : (k mod 7 < 7)%nat) by (apply Nat.mod_upper_bound; lia).
    unfold Qle, Qlt. cbn [Qnum Qden]. lia.
  - vm_compute. reflexivity.
  - vm_compute. reflexivity.
  - vm_compute. left. reflexivity.
Defined.

(** ** The page *)

Section Pages.
Context {T : Type} {num : Number T}.

Lemma step_component (ev : Event T) (pg pg' : Page T) :
  step ev pg = Some pg' -> react ev (component pg) = Some (component pg').
Proof.
  unfold step. intros Hs.
  destruct (react ev (component pg)) as [st'|]; [|discriminate Hs].
  apply Some_eq in Hs. subst pg'. reflexivity.
Qed.

Lemma browse_component (evs : list (Event T)) (pg pg' : Page T) :
  browse evs pg = Some pg' -> run evs (component pg) = Some (component pg').
Proof.
  revert pg. induction evs as [|ev evs IH]; intros pg Hb.
  - apply Some_eq in Hb. subst pg'. reflexivity.
  - cbn [browse] in Hb. destruct (step ev pg) as [pg1|] eqn:Hs;
      [|discriminate Hb].
    cbn [run]. rewrite (step_component _ _ _ Hs). apply IH. exact Hb.
Qed.

(** The page takes every step the component takes. *)
Lemma run_browse (evs : list (Event T)) (pg : Page T) (st : State T) :
  run evs (component pg) = Some st ->
  exists pg', browse evs pg = Some pg' /\ component pg' = st.
Proof.
  revert pg. induction evs as [|ev evs IH]; intros pg Hrun.
  - apply Some_eq in Hrun. exists pg. split; [reflexivity|exact Hrun].
  - cbn [run] in Hrun. cbn [browse]. unfold step.
    destruct (react ev (component pg)) as [st1|]; [|discriminate Hrun].
    apply IH. exact Hrun.
Qed.

Lemma run_snoc (evs : list (Event T)) (ev : Event T) (st st1 st2 : State T) :
  run evs st = Some st1 -> react ev st1 = Some st2 ->
  run (evs ++ [ev]) st = Some st2.
Proof.
  revert st. induction evs as [|e evs IH]; intros st Hrun Hr.
  - apply Some_eq in Hrun. subst st1. cbn [app run]. rewrite Hr. reflexivity.
  - cbn [run] in Hrun. cbn [app run].
    destruct (react e st) as [s|]; [|discriminate Hrun].
    apply IH; assumption.
Qed.

(** What is rendered on a page is the render of a state the component has
    been in. *)
Lemma rendered_reached (g : Rand T) (evs : list (Event T)) :
  forall (evs0 : list (Event T)) (pg0 pg : Page T),
    run evs0 (initial g) = Some (component pg0) ->
    (forall r, rendered pg0 = Some r ->
       exists evs1 st1, run evs1 (initial g) = Some st1 /\ r = render st1) ->
    browse evs pg0 = Some pg ->
    forall r, rendered pg = Some r ->
      exists evs1 st1, run evs1 (initial g) = Some st1 /\ r = render st1.
Proof.
  induction evs as [|ev evs IH]; intros evs0 pg0 pg Hrun Hren Hb.
  - apply Some_eq in Hb. subst pg. exact Hren.
  - cbn [browse] in Hb. destruct (step ev pg0) as [pg1|] eqn:Hs;
      [|discriminate Hb].
    unfold step in Hs.
    destruct (react ev (component pg0)) as [st'|] eqn:Hr; [|discriminate Hs].
    apply Some_eq in Hs. subst pg1.
    refine (IH (evs0 ++ [ev]) _ pg _ _ Hb); clear IH.
    + apply (run_snoc evs0 ev _ (component pg0)); assumption.
    + cbn [rendered]. intros r Hrd.
      destruct (renders ev (component pg0)); [|apply Hren; exact Hrd].
      apply Some_eq in Hrd. subst r.
      exists evs0, (component pg0). split; [exact Hrun|reflexivity].
Qed.

(** The svg element holds no scene before the component is mounted, and
    the component holds its initial Fit until a scene is drawn. *)
Lemma react_attached (ev : Event T) (st st' : State T) :
  (mounted st = false -> scene st = None) ->
  (scene st = None -> slope st = of_Z 0 /\ intercept st = of_Z 0) ->
  react ev st = Some st' ->
  (mounted st' = false -> scene st' = None)
  /\ (scene st' = None -> slope st' = of_Z 0 /\ intercept st' = of_Z 0).
Proof.
  intros Hm Hf Hr. destruct ev; cbn [react] in Hr.
  - destruct (mounted st) eqn:Em.
    { returned Hr st'. split; [intros E; rewrite E in Em; discriminate Em|].
      exact Hf. }
    destruct (drawChart (with_mounted true st)) as [st1|] eqn:Hd;
      [|discriminate Hr].
    returned Hr st'.
    destruct (generateData_frame st1) as (Hs & Hi & Hsc & _).
    destruct (generateData_keeps st1) as (_ & Hm1 & _).
    destruct (drawChart_keeps _ _ Hd) as (_ & Hm2 & _).
    rewrite Hs, Hi, Hsc, Hm1, Hm2. cbn [mounted with_mounted].
    split; [intros E; discriminate E|].
    assert (Hcase : points (with_mounted true st) = []
                    \/ points (with_mounted true st) <> []).
    { destruct (points (with_mounted true st));
        [left; reflexivity|right; discriminate]. }
    destruct Hcase as [Hp|Hp].
    + rewrite drawChart_empty in Hd by exact Hp. returned Hd st1. exact Hf.
    + destruct (drawChart_nonempty _ _ Hp Hd) as (lp & _ & ->).
      cbn zeta. intros E. discriminate E.
  - destruct (generateData_frame st) as (Hs & Hi & Hsc & _).
    destruct (generateData_keeps st) as (_ & Hm1 & _).
    destruct (mounted st) eqn:Em; returned Hr st';
      rewrite ?Hs, ?Hi, ?Hsc, ?Hm1, ?Em; split; assumption.
  - destruct (mounted st && dirty st) eqn:Emd;
      [|returned Hr st'; split; assumption].
    apply andb_true_iff in Emd. destruct Emd as [Em _].
    destruct (drawChart_keeps _ _ Hr) as (_ & Hm2 & _).
    split; [rewrite Hm2; cbn [mounted clean]; rewrite Em; intros E;
            discriminate E|].
    assert (Hcase : points (clean st) = [] \/ points (clean st) <> []).
    { destruct (points (clean st)); [left; reflexivity|right; discriminate]. }
    destruct Hcase as [Hp|Hp].
    + rewrite drawChart_empty in Hr by exact Hp. returned Hr st'. exact Hf.
    + destruct (drawChart_nonempty _ _ Hp Hr) as (lp & _ & ->).
      cbn zeta. intros E. discriminate E.
  - returned Hr st'. split; assumption.
  - destruct (fireTimer st) as [st1|] eqn:Hft; returned Hr st';
      [|split; assumption].
    destruct (fireTimer_keeps _ _ Hft)
      as (_ & Hm2 & _ & _ & _ & _ & Hs & Hi & Hsc).
    rewrite Hm2, Hs, Hi, Hsc. split; assumption.
  - destruct (circleAt i st); returned Hr st'; split; assumption.
  - destruct (circleAt i st); returned Hr st'; split; assumption.
  - destruct (circleAt i st); returned Hr st'; split; assumption.
  - returned Hr st'. unfold downloadPNG.
    destruct (mounted st) eqn:Em; [destruct toPng|];
      cbn [mounted scene slope intercept with_downloads]; rewrite ?Em;
      split; assumption.
Qed.

Lemma run_attached (evs : list (Event T)) (st st' : State T) :
  (mounted st = false -> scene st = None) ->
  (scene st = None -> slope st = of_Z 0 /\ intercept st = of_Z 0) ->
  run evs st = Some st' ->
  (mounted st' = false -> scene st' = None)
  /\ (scene st' = None -> slope st' = of_Z 0 /\ intercept st' = of_Z 0).
Proof.
  revert st. induction evs as [|ev evs IH]; intros st Hm Hf Hrun.
  - apply Some_eq in Hrun. subst st'. split; assumption.
  - cbn [run] in Hrun.
    destruct (react ev st) as [st1|] eqn:Hr; [|discriminate Hrun].
    destruct (react_attached ev st st1 Hm Hf Hr) as [Hm1 Hf1].
    apply (IH st1); assumption.
Qed.

Lemma reached_attached (g : Rand T) (evs : list (Event T)) (st : State T) :
  run evs (initial g) = Some st ->
  (mounted st = false -> scene st = None)
  /\ (scene st = None -> slope st = of_Z 0 /\ intercept st = of_Z 0).
Proof.
  apply run_attached.
  - intros _. reflexivity.
  - intros _. split; reflexivity.
Qed.

(** The unhandled rejections of a run. *)
Lemma browse_unhandled (evs : list (Event T)) (pg pg' : Page T) :
  browse evs pg = Some pg' ->
  unhandled pg'
  = (unhandled pg + rejected_captures (mounted (component pg)) evs)%nat.
Proof.
  revert pg. induction evs as [|ev evs IH]; intros pg Hb.
  - apply Some_eq in Hb. subst pg'. cbn [rejected_captures]. lia.
  - cbn [browse] in Hb. destruct (step ev pg) as [pg1|] eqn:Hs;
      [|discriminate Hb].
    rewrite (IH pg1 Hb). clear IH Hb.
    unfold step in Hs.
    destruct (react ev (component pg)) as [st'|] eqn:Hr; [|discriminate Hs].
    destruct (react_exports _ _ _ Hr) as [Hm _].
    apply Some_eq in Hs. subst pg1. cbn [unhandled component].
    rewrite Hm.
    destruct ev; cbn [rejects rejected_captures]; try lia.
    destruct toPng; destruct (mounted (component pg)); lia.
Qed.

End Pages.

(** ** The Fit on the page *)

Section DisplayedFit.
Context {T : Type} {num : Number T}.

(** C6, as the code has it. On every page the component reaches, the scene
    in the svg element shows one Sample with the Fit computed from that
    same Sample: the drawing effect calls [calculateRegression] on the
    current Sample before it draws, and once it has run the Sample on
    display is the current one. The Stats panel is not part of that: the
    render that precedes a draw prints the new count of points with the
    slope and the intercept the component held before the draw, and the
    panel keeps them beside the new scene until React renders again; that
    render prints the Fit of the Sample on display. *)
Theorem scene_displays_current_fit (g : Rand T) (evs : list (Event T))
    (pg : Page T) :
  browse evs (load g) = Some pg ->
  (forall sc, scene (component pg) = Some sc ->
     exists S, displays (component pg) sc S
               /\ (dirty (component pg) = false ->
                   points (component pg) <> [] -> S = points (component pg)))
  /\ (forall pg', mounted (component pg) = true ->
        dirty (component pg) = true -> points (component pg) <> [] ->
        step FlushEffect pg = Some pg' ->
        (exists sc, scene (component pg') = Some sc
                    /\ displays (component pg') sc (points (component pg)))
        /\ exists r,
             rendered pg' = Some r
             /\ statPoints (stats r) = length (points (component pg))
             /\ statSlope (stats r) = toFixed (slope (component pg)) 2
             /\ statIntercept (stats r)
                = toFixed (intercept (component pg)) 2)
  /\ (forall sc S pg', scene (component pg) = Some sc ->
        displays (component pg) sc S -> dirty (component pg) = false ->
        step FlushEffect pg = Some pg' ->
        component pg' = component pg
        /\ exists r,
             rendered pg' = Some r
             /\ statSlope (stats r) = toFixed (fit_m (regression S)) 2
             /\ statIntercept (stats r) = toFixed (fit_b (regression S)) 2).
Proof.
  intros Hb. pose proof (browse_component _ _ _ Hb) as Hrun.
  cbn [component load] in Hrun.
  destruct (run_invariant evs (initial g) _ (initial_invariant g) Hrun)
    as [Hc Hu].
  destruct (reached_attached g evs _ Hrun) as [Hatt _].
  split; [|split].
  - intros sc Hsc. destruct (proj2 Hc sc Hsc) as (S & Hdisp & _).
    exists S. split; [exact Hdisp|]. intros Hd Hne.
    destruct (Hu Hd Hne) as (sc' & Hsc' & Hbd).
    rewrite Hsc in Hsc'. apply Some_eq in Hsc'. subst sc'.
    destruct Hdisp as (_ & Hcs & _). rewrite Hcs, bound_circlesOf in Hbd.
    exact Hbd.
  - intros pg' Hm Hd Hne Hs. unfold step in Hs.
    destruct (react FlushEffect (component pg)) as [st'|] eqn:Hr;
      [|discriminate Hs].
    apply Some_eq in Hs. subst pg'. cbn [component rendered renders].
    rewrite Hm. split.
    + cbn [react] in Hr. rewrite Hm, Hd in Hr. cbn [andb] in Hr.
      destruct (drawChart_coherent (clean (component pg)) st')
        as (Hc' & _ & _ & sc & Hsc & Hcs); [apply Hc|exact Hne|exact Hr|].
      exists sc. split; [exact Hsc|].
      destruct (proj2 Hc' sc Hsc) as (S & Hdisp & _).
      assert (HS : S = points (component pg)).
      { destruct Hdisp as (_ & Hcs' & _). rewrite Hcs in Hcs'.
        apply (f_equal (map bound)) in Hcs'. rewrite !bound_circlesOf in Hcs'.
        symmetry. exact Hcs'. }
      rewrite <- HS. exact Hdisp.
    + eexists. split; [reflexivity|]. repeat split.
  - intros sc S pg' Hsc Hdisp Hd Hs. unfold step in Hs.
    assert (Hm : mounted (component pg) = true).
    { destruct (mounted (component pg)) eqn:Em; [reflexivity|].
      rewrite (Hatt eq_refl) in Hsc. discriminate Hsc. }
    assert (Hr : react FlushEffect (component pg) = Some (component pg)).
    { cbn [react]. rewrite Hm, Hd. reflexivity. }
    rewrite Hr in Hs. apply Some_eq in Hs. subst pg'.
    cbn [component rendered renders]. rewrite Hm.
    split; [reflexivity|]. eexists. split; [reflexivity|].
    destruct Hdisp as (_ & _ & _ & _ & Hsl & Hic & _).
    cbn [render stats renderStats statSlope statIntercept].
    rewrite Hsl, Hic. split; reflexivity.
Qed.

End DisplayedFit.

Lemma scene_displays_current_fit_witness :
  (forall sc, scene (component (page_after two_segments tenths)) = Some sc ->
     exists S, displays (component (page_after two_segments tenths)) sc S
               /\ (dirty (component (page_after two_segments tenths)) = false ->
                   points (component (page_after two_segments tenths)) <> [] ->
                   S = points (component (page_after two_segments tenths))))
  /\ (forall pg', mounted (component (page_after two_segments tenths)) = true ->
        dirty (component (page_after two_segments tenths)) = true ->
        points (component (page_after two_segments tenths)) <> [] ->
        step FlushEffect (page_after two_segments tenths) = Some pg' ->
        (exists sc, scene (component pg') = Some sc
                    /\ displays (component pg') sc
                         (points (component (page_after two_segments tenths))))
        /\ exists r,
             rendered pg' = Some r
             /\ statPoints (stats r)
                = length (points (component (page_after two_segments tenths)))
             /\ statSlope (stats r)
                = toFixed (slope (component (page_after two_segments tenths))) 2
             /\ statIntercept (stats r)
                = toFixed
                    (intercept (component (page_after two_segments tenths))) 2)
  /\ (forall sc S pg',
        scene (component (page_after two_segments tenths)) = Some sc ->
        displays (component (page_after two_segments tenths)) sc S ->
        dirty (component (page_after two_segments tenths)) = false ->
        step FlushEffect (page_after two_segments tenths) = Some pg' ->
        component pg' = component (page_after two_segments tenths)
        /\ exists r,
             rendered pg' = Some r
             /\ statSlope (stats r) = toFixed (fit_m (regression S)) 2
             /\ statIntercept (stats r) = toFixed (fit_b (regression S)) 2).
Proof.
  apply (scene_displays_current_fit tenths two_segments).
  vm_compute. reflexivity.
Defined.

(** C6, as the specification states it, fails on the page: a stale Fit is
    displayed against a newer Sample. Right after the first draw the scene
    shows the first Sample, whose Fit prints as 2.54 and 3.51, while the
    Stats panel shows 0.00 and 0.00; right after the draw of the second
    Sample the scene shows that Sample, whose Fit prints as 2.50 and 3.95,
    while the panel still shows 2.54 and 3.51, the Fit of the first. *)
Lemma panel_shows_previous_fit :
  (browse first_draw (load tenths) = Some (page_after first_draw tenths)
   /\ option_map (fun sc => map bound (circles sc))
        (scene (component (page_after first_draw tenths)))
      = Some (points (component (page_after first_draw tenths)))
   /\ toFixed (fit_m (regression
                        (points (component (page_after first_draw tenths))))) 2
      = Text "2.54"
   /\ toFixed (fit_b (regression
                        (points (component (page_after first_draw tenths))))) 2
      = Text "3.51"
   /\ option_map stats (rendered (page_after first_draw tenths))
      = Some {| statSlope := Text "0.00"; statIntercept := Text "0.00";
                statPoints := 20 |})
  /\ (browse second_draw (load tenths) = Some (page_after second_draw tenths)
      /\ option_map (fun sc => map bound (circles sc))
           (scene (component (page_after second_draw tenths)))
         = Some (points (component (page_after second_draw tenths)))
      /\ toFixed (fit_m (regression
                           (points (component (page_after second_draw tenths)))))
                 2
         = Text "2.50"
      /\ toFixed (fit_b (regression
                           (points (component (page_after second_draw tenths)))))
                 2
         = Text "3.95"
      /\ option_map stats (rendered (page_after second_draw tenths))
         = Some {| statSlope := Text "2.54"; statIntercept := Text "3.51";
                   statPoints := 20 |}).
Proof.
  split.
  - split; [vm_compute; reflexivity|].
    split; [vm_compute; reflexivity|].
    split; [vm_compute; reflexivity|].
    split; vm_compute; reflexivity.
  - split; [vm_compute; reflexivity|].
    split; [vm_compute; reflexivity|].
    split; [vm_compute; reflexivity|].
    split; vm_compute; reflexivity.
Qed.

(** ** What escapes the component *)

(** X7. No exception leaves the component's own code: whatever happens on
    the page, in whatever order, and whatever [Math.random] returns, every
    sequence of events leads to a page, in exact arithmetic and in binary64
    (the [RangeError] of [d3.range] is never raised in the drawing effect).
    What does escape is the rejection of a capture, which [downloadPNG]
    does not handle: the page counts exactly one unhandled rejection per
    click on the export button whose capture rejects while the svg element
    is attached. *)
Theorem only_rejected_captures_escape :
  (forall (g : Rand xnum) (evs : list (Event xnum)),
     exists pg, browse evs (load g) = Some pg
                /\ unhandled pg = rejected_captures false evs)
  /\ (forall (g : Rand float) (evs : list (Event float)),
        exists pg, browse evs (load g) = Some pg
                   /\ unhandled pg = rejected_captures false evs).
Proof.
  split; intros g evs.
  - assert (Hd : is_Some (run evs (initial g))).
    { apply (run_defined (fun _ => True) (fun S => map px S = xs20)).
      - intros st _. split; [apply generateData_xs_exact|exact I].
      - intros S r HS. destruct (linePoints_xs_exact S r HS) as (lp & -> & _).
        eexists. reflexivity.
      - apply initial_samples. exact I. }
    destruct Hd as [st Hrun].
    destruct (run_browse evs (load g) st Hrun) as (pg & Hb & _).
    exists pg. split; [exact Hb|].
    rewrite (browse_unhandled _ _ _ Hb). reflexivity.
  - assert (Hd : is_Some (run evs (initial g))).
    { apply (run_defined (fun _ => True) (fun S => map px S = xs20)).
      - intros st _. split; [apply generateData_xs_binary64|exact I].
      - intros S r HS. destruct (linePoints_xs_binary64 S r HS) as (lp & -> & _).
        eexists. reflexivity.
      - apply initial_samples. exact I. }
    destruct Hd as [st Hrun].
    destruct (run_browse evs (load g) st Hrun) as (pg & Hb & _).
    exists pg. split; [exact Hb|].
    rewrite (browse_unhandled _ _ _ Hb). reflexivity.
Qed.

(** ** The Fit the panel prints *)

Section PanelFit.
Local Open Scope Q_scope.

(** The Fit a reachable state holds: the initial one while no scene has
    been drawn, afterwards one near the trend of the generator. *)
Lemma reached_fit (g : Rand xnum) (evs : list (Event xnum)) (st : State xnum) :
  unit_interval g -> run evs (initial g) = Some st ->
  (scene st = None /\ slope st = Fin 0 /\ intercept st = Fin 0)
  \/ (exists sc m b,
        scene st = Some sc /\ slope st = Fin m /\ intercept st = Fin b
        /\ Qabs (m - (5 # 2)) <= 50 # 133 /\ Qabs (b - 5) <= 1155 # 266).
Proof.
  intros Hunit Hrun.
  destruct (scene st) as [sc|] eqn:Hs.
  - right.
    destruct (run_samples unit_interval from_draws generateData_from_draws
                evs (initial g) st (initial_samples _ _ g Hunit) Hrun)
      as (_ & _ & Hsc).
    destruct (run_invariant evs (initial g) st (initial_invariant g) Hrun)
      as [[_ Hdisp] _].
    destruct (Hdisp sc Hs) as (S & (_ & Hcs & _ & _ & Hsl & Hic & _) & _).
    specialize (Hsc sc Hs). rewrite Hcs, bound_circlesOf in Hsc.
    destruct (from_draws_fit S Hsc) as (m & b & Hr & Hm & Hb).
    rewrite Hr in Hsl, Hic. cbn [fit_m fit_b] in Hsl, Hic.
    exists sc, m, b. repeat split; assumption.
  - left. destruct (reached_attached g evs st Hrun) as [_ Hf].
    destruct (Hf Hs) as [Hsl Hic]. split; [reflexivity|].
    split; assumption.
Qed.

Lemma near_trend_two_decimals (m b : Q) :
  Qabs (m - (5 # 2)) <= 50 # 133 -> Qabs (b - 5) <= 1155 # 266 ->
  two_decimals m (toFixed (Fin m) 2) /\ two_decimals b (toFixed (Fin b) 2).
Proof.
  intros Hm Hb. apply Qabs_Qle_condition in Hm, Hb.
  split; apply toFixed_two_decimals; try reflexivity;
    apply Qabs_Qlt_condition;
    change (inject_Z (10 ^ 21)) with (1000000000000000000000 # 1)%Q;
    split; lra.
Qed.

End PanelFit.

(** X12. When [Math.random] draws from [[0, 1)], the Stats panel of every
    page the component reaches prints either 0.00 and 0.00, the initial
    slope and intercept, or a slope within 50/133 of 2.5 and an intercept
    within 1155/266 of 5, both with two decimals; and once a scene is
    drawn, the next render prints the slope and the intercept the
    component holds, which are of the second kind. *)
Theorem stats_show_fit_near_trend (g : Rand xnum) (evs : list (Event xnum))
    (pg : Page xnum) :
  unit_interval g -> browse evs (load g) = Some pg ->
  (forall r, rendered pg = Some r ->
     (statSlope (stats r) = Text "0.00"
      /\ statIntercept (stats r) = Text "0.00")
     \/ exists m b,
          (Qabs (m - (5 # 2)) <= 50 # 133)%Q
          /\ (Qabs (b - 5) <= 1155 # 266)%Q
          /\ two_decimals m (statSlope (stats r))
          /\ two_decimals b (statIntercept (stats r)))
  /\ (forall sc pg', scene (component pg) = Some sc ->
        step FlushEffect pg = Some pg' ->
        exists m b r,
          slope (component pg) = Fin m /\ intercept (component pg) = Fin b
          /\ (Qabs (m - (5 # 2)) <= 50 # 133)%Q
          /\ (Qabs (b - 5) <= 1155 # 266)%Q
          /\ rendered pg' = Some r
          /\ two_decimals m (statSlope (stats r))
          /\ two_decimals b (statIntercept (stats r))).
Proof.
  intros Hunit Hb. split.
  - intros r Hr.
    destruct (rendered_reached g evs [] (load g) pg eq_refl) with (r := r)
      as (evs1 & st1 & Hrun1 & ->); [intros r0 E; discriminate E|exact Hb|exact Hr|].
    cbn [render stats renderStats statSlope statIntercept].
    destruct (reached_fit g evs1 st1 Hunit Hrun1)
      as [(_ & -> & ->)|(sc & m & b & _ & -> & -> & Hm & Hbd)].
    + left. split; vm_compute; reflexivity.
    + right. exists m, b. split; [exact Hm|]. split; [exact Hbd|].
      apply near_trend_two_decimals; assumption.
  - intros sc pg' Hsc Hs.
    pose proof (browse_component _ _ _ Hb) as Hrun.
    cbn [component load] in Hrun.
    destruct (reached_fit g evs _ Hunit Hrun)
      as [(Hn & _)|(sc' & m & b & _ & Hsl & Hic & Hm & Hbd)];
      [rewrite Hn in Hsc; discriminate Hsc|].
    destruct (reached_attached g evs _ Hrun) as [Hatt _].
    assert (Hmt : mounted (component pg) = true).
    { destruct (mounted (component pg)) eqn:Em; [reflexivity|].
      rewrite (Hatt eq_refl) in Hsc. discriminate Hsc. }
    unfold step in Hs.
    destruct (react FlushEffect (component pg)) as [st'|]; [|discriminate Hs].
    apply Some_eq in Hs. subst pg'. cbn [rendered renders]. rewrite Hmt.
    exists m, b. eexists. split; [exact Hsl|]. split; [exact Hic|].
    split; [exact Hm|]. split; [exact Hbd|]. split; [reflexivity|].
    cbn [render stats renderStats statSlope statIntercept].
    rewrite Hsl, Hic. apply near_trend_two_decimals; assumption.
Qed.

Lemma stats_show_fit_near_trend_witness :
  (forall r, rendered (page_after second_draw tenths) = Some r ->
     (statSlope (stats r) = Text "0.00"
      /\ statIntercept (stats r) = Text "0.00")
     \/ exists m b,
          (Qabs (m - (5 # 2)) <= 50 # 133)%Q
          /\ (Qabs (b - 5) <= 1155 # 266)%Q
          /\ two_decimals m (statSlope (stats r))
          /\ two_decimals b (statIntercept (stats r)))
  /\ (forall sc pg',
        scene (component (page_after second_draw tenths)) = Some sc ->
        step FlushEffect (page_after second_draw tenths) = Some pg' ->
        exists m b r,
          slope (component (page_after second_draw tenths)) = Fin m
          /\ intercept (component (page_after second_draw tenths)) = Fin b
          /\ (Qabs (m - (5 # 2)) <= 50 # 133)%Q
          /\ (Qabs (b - 5) <= 1155 # 266)%Q
          /\ rendered pg' = Some r
          /\ two_decimals m (statSlope (stats r))
          /\ two_decimals b (statIntercept (stats r))).
Proof.
  apply (stats_show_fit_near_trend tenths second_draw).
  - intros k. exists (Z.of_nat (k mod 7) # 10)%Q. split; [reflexivity|].
    assert (Hk : (k mod 7 < 7)%nat) by (apply Nat.mod_upper_bound; lia).
    unfold Qle, Qlt. cbn [Qnum Qden]. lia.
  - vm_compute. reflexivity.
Defined.

(** ** The animation of the line *)

Section StaleCallbacks.
Context {T : Type} {num : Number T}.


End StaleCallbacks.



